(** * flyer_parser.py: a shallow embedding of [FlyerParser] and its properties

    The development follows the source file top-down:

    - [PyStr]      the [str] methods the parser uses ([strip], [split], [in]);
    - [Strptime]   [datetime.strptime(_, "%d.%m.%Y")] and the two [strftime]
                   formats, after CPython's [_strptime.py];
    - [Soup]       the BeautifulSoup tree and the three queries of
                   [parse_flyers_category];
    - [Scraper]    the state of a [FlyerParser] object, the capabilities it
                   consumes (HTTP fetch, browser driver, clock) and the methods
                   [parse_flyer], [parse_category_shop], [parse_flyers_category];
    - [Json]       what [json.dump(_, ensure_ascii=False, indent=4)] writes
                   for the parsed flyers, after CPython's [json.encoder];
    - [Script]     [write_flyers_to_file] and the body of [__main__].

    Modelling conventions.  A Python [str] is a [string] whose characters are
    the code points U+0000..U+00FF; Python integers are [Z]; a raised
    exception is the right injection of a [sum].  [strftime("%Y")] prints the
    year as the C library of Linux does, without leading zeros. *)

From Stdlib Require Import String Ascii List ZArith Bool Lia DecimalString.
Import ListNotations.

Set Warnings "-register-all".

Open Scope string_scope.
Open Scope Z_scope.

(** ** Exceptions and results *)

Inductive exn : Type :=
| NoSuchElementException
| AttributeError
| IndexError
| ValueError
| TypeError
| UnboundLocalError
| TimeoutException
| RequestException
| WebDriverException.

Definition result (A : Type) : Type := (A + exn)%type.

Definition ret {A} (a : A) : result A := inl a.
Definition raise {A} (e : exn) : result A := inr e.
Definition bind {A B} (r : result A) (k : A -> result B) : result B :=
  match r with
  | inl a => k a
  | inr e => inr e
  end.

Notation "x <- r ;; k" := (bind r (fun x => k))
  (at level 61, r at next level, right associativity).
Notation "' p <- r ;; k" := (bind r (fun p => k))
  (at level 61, p pattern, r at next level, right associativity).

Definition succeeds {A} (r : result A) : Prop := exists a, r = inl a.
Definition fails {A} (r : result A) : Prop := exists e, r = inr e.

(** ** Python [str] methods *)

Module PyStr.

(** [str.isspace] on the code points below 256. *)
Definition isspace (c : ascii) : bool :=
  let n := N_of_ascii c in
  (((9 <=? n) && (n <=? 13)) || ((28 <=? n) && (n <=? 32))
   || (n =? 133) || (n =? 160))%N.

Fixpoint lstrip (s : string) : string :=
  match s with
  | String c r => if isspace c then lstrip r else s
  | EmptyString => EmptyString
  end.

Fixpoint rstrip (s : string) : string :=
  match s with
  | String c r =>
      match rstrip r with
      | EmptyString => if isspace c then EmptyString else String c EmptyString
      | r' => String c r'
      end
  | EmptyString => EmptyString
  end.

(** [s.strip()] *)
Definition strip (s : string) : string := rstrip (lstrip s).

(** [s.startswith(p)] *)
Fixpoint startswith (p s : string) : bool :=
  match p, s with
  | EmptyString, _ => true
  | String a p', String b s' => Ascii.eqb a b && startswith p' s'
  | String _ _, EmptyString => false
  end.

(** [needle in hay] *)
Fixpoint contains (needle hay : string) : bool :=
  startswith needle hay
  || match hay with
     | String _ hay' => contains needle hay'
     | EmptyString => false
     end.

(** [s.split(sep)] for a non-empty [sep]: the fields between the leftmost,
    non-overlapping occurrences of [sep].  [skip] counts the characters of
    an occurrence of [sep] that are still to be stepped over. *)
Fixpoint split_from (sep : string) (skip : nat) (s : string) : list string :=
  match s with
  | EmptyString => [EmptyString]
  | String c s' =>
      match skip with
      | S k => split_from sep k s'
      | O =>
          if startswith sep s
          then EmptyString :: split_from sep (Nat.pred (String.length sep)) s'
          else match split_from sep O s' with
               | field :: fields => String c field :: fields
               | [] => [String c EmptyString]
               end
      end
  end.

Definition split (sep s : string) : list string := split_from sep O s.

(** [sep.join(fields)] *)
Fixpoint join (sep : string) (fields : list string) : string :=
  match fields with
  | [] => EmptyString
  | [f] => f
  | f :: fs => f ++ sep ++ join sep fs
  end.

(** [l[i]] *)
Definition index {A} (l : list A) (i : nat) : result A :=
  match nth_error l i with
  | Some a => ret a
  | None => raise IndexError
  end.

(** [x or y] on values that are [None] or a [str]. *)
Definition truthy (x : option string) : bool :=
  match x with
  | Some (String _ _) => true
  | _ => false
  end.

Definition or_ (x y : option string) : option string :=
  if truthy x then x else y.

End PyStr.

(** ** [datetime.strptime] and [strftime] *)

Module Strptime.

(** *** A backtracking matcher

    A regular expression is the list of ways it can match a prefix of the
    input, most preferred first: each way is (matched text, rest). *)
Definition re : Type := string -> list (string * string).

Definition re_class (p : ascii -> bool) : re :=
  fun s =>
    match s with
    | String c r => if p c then [(String c EmptyString, r)] else []
    | EmptyString => []
    end.

Definition re_seq (a b : re) : re :=
  fun s =>
    flat_map (fun '(m1, r1) => map (fun '(m2, r2) => (m1 ++ m2, r2)) (b r1))
             (a s).

Definition re_alt (a b : re) : re := fun s => (a s ++ b s)%list.

Definition between (lo hi : ascii) (c : ascii) : bool :=
  ((N_of_ascii lo <=? N_of_ascii c) && (N_of_ascii c <=? N_of_ascii hi))%N.

Definition re_range (lo hi : ascii) : re := re_class (between lo hi).
Definition re_lit (c : ascii) : re := re_class (Ascii.eqb c).
(** [\d] *)
Definition re_digit : re := re_range "0" "9".

(** [%d] is [3[0-1]|[1-2]\d|0[1-9]|[1-9]| [1-9]] *)
Definition re_d : re :=
  re_alt (re_seq (re_lit "3") (re_range "0" "1"))
 (re_alt (re_seq (re_range "1" "2") re_digit)
 (re_alt (re_seq (re_lit "0") (re_range "1" "9"))
 (re_alt (re_range "1" "9")
         (re_seq (re_lit " ") (re_range "1" "9"))))).

(** [%m] is [1[0-2]|0[1-9]|[1-9]] *)
Definition re_m : re :=
  re_alt (re_seq (re_lit "1") (re_range "0" "2"))
 (re_alt (re_seq (re_lit "0") (re_range "1" "9"))
         (re_range "1" "9")).

(** [%Y] is [\d\d\d\d] *)
Definition re_Y : re :=
  re_seq re_digit (re_seq re_digit (re_seq re_digit re_digit)).

(** The compiled format ["%d.%m.%Y"], i.e.
    [(?P<d>..)\.(?P<m>..)\.(?P<Y>..)]: every match, in the order the
    engine finds them, as (d, m, Y, unmatched rest). *)
Definition format_matches (s : string)
  : list (string * string * string * string) :=
  flat_map (fun '(d, r1) =>
  flat_map (fun '(_, r2) =>
  flat_map (fun '(m, r3) =>
  flat_map (fun '(_, r4) =>
  map      (fun '(y, r5) => (d, m, y, r5))
           (re_Y r4)) (re_lit "." r3)) (re_m r2)) (re_lit "." r1)) (re_d s).

(** [format_regex.match(data_string)] *)
Definition format_match (s : string)
  : option (string * string * string * string) :=
  hd_error (format_matches s).

(** *** [int] on the matched groups *)

Definition digit_value (c : ascii) : option Z :=
  if between "0" "9" c then Some (Z.of_N (N_of_ascii c) - 48) else None.

Fixpoint int_digits (acc : Z) (s : string) : option Z :=
  match s with
  | EmptyString => Some acc
  | String c r =>
      match digit_value c with
      | Some v => int_digits (10 * acc + v) r
      | None => None
      end
  end.

(** [int(s)] for an unsigned decimal literal with optional surrounding
    whitespace (all a group of the format can hold). *)
Definition int (s : string) : result Z :=
  match PyStr.strip s with
  | EmptyString => raise ValueError
  | t => match int_digits 0 t with
         | Some v => ret v
         | None => raise ValueError
         end
  end.

(** *** Calendar *)

Definition is_leap (y : Z) : bool :=
  (y mod 4 =? 0) && (negb (y mod 100 =? 0) || (y mod 400 =? 0)).

Definition days_in_month (y m : Z) : Z :=
  if m =? 2 then (if is_leap y then 29 else 28)
  else if (m =? 4) || (m =? 6) || (m =? 9) || (m =? 11) then 30
  else 31.

Record date : Type := Date { year : Z; month : Z; day : Z }.

(** The range checks of the [date(year, month, day)] constructor. *)
Definition check_date (y m d : Z) : bool :=
  (1 <=? y) && (y <=? 9999) && (1 <=? m) && (m <=? 12)
  && (1 <=? d) && (d <=? days_in_month y m).

Definition make_date (y m d : Z) : result date :=
  if check_date y m d then ret (Date y m d) else raise ValueError.

(** [datetime.strptime(s, "%d.%m.%Y")] (the time of day is midnight and is
    not printed by the date format). *)
Definition strptime (s : string) : result date :=
  match format_match s with
  | None => raise ValueError
  | Some (d, m, y, rest) =>
      match rest with
      | String _ _ => raise ValueError
      | EmptyString =>
          dv <- int d ;;
          mv <- int m ;;
          yv <- int y ;;
          make_date yv mv dv
      end
  end.

(** *** Formatting *)

Definition digit_char (n : Z) : ascii := ascii_of_N (Z.to_N (48 + n)).

(** ["%02d"] and ["%04d"] on the ranges the fields take. *)
Definition pad2 (n : Z) : string :=
  String (digit_char (n / 10)) (String (digit_char (n mod 10)) EmptyString).

Definition pad4 (n : Z) : string :=
  String (digit_char (n / 1000))
 (String (digit_char (n / 100 mod 10))
 (String (digit_char (n / 10 mod 10))
 (String (digit_char (n mod 10)) EmptyString))).

(** ["%Y"] as the C library prints it: the year in decimal, without
    leading zeros (years 1 to 9999). *)
Definition year_text (y : Z) : string :=
  if y <? 10 then String (digit_char y) EmptyString
  else if y <? 100 then pad2 y
  else if y <? 1000
       then String (digit_char (y / 100)) (pad2 (y mod 100))
       else pad4 y.

(** [d.strftime("%Y-%m-%d")] *)
Definition strftime_date (d : date) : string :=
  year_text (year d) ++ "-" ++ pad2 (month d) ++ "-" ++ pad2 (day d).

Record datetime : Type :=
  DateTime { on : date; hour : Z; minute : Z; second : Z }.

(** [t.strftime("%Y-%m-%d %H:%M:%S")] *)
Definition strftime_datetime (t : datetime) : string :=
  strftime_date (on t) ++ " " ++ pad2 (hour t) ++ ":" ++ pad2 (minute t)
  ++ ":" ++ pad2 (second t).

End Strptime.

(** ** The BeautifulSoup tree *)

Module Soup.

(** The classes of strings that bs4 keeps apart from [NavigableString]
    itself: the subclasses for comments and declarations, and those the
    builder gives to the strings of [script], [style], [template], [rt] and
    [rp] elements. *)
Inductive string_class : Type :=
| CData
| Comment
| Declaration
| Doctype
| ProcessingInstruction
| Script
| Stylesheet
| TemplateString
| RubyTextString
| RubyParenthesisString.

Inductive Node : Type :=
| NavigableString (text : string)
| SpecialString (cls : string_class) (text : string)
| Tag (name : string) (attrs : list (string * string)) (contents : list Node).

(** [attrs.get(key)] *)
Fixpoint attrs_get (key : string) (attrs : list (string * string))
  : option string :=
  match attrs with
  | [] => None
  | (k, v) :: rest => if String.eqb k key then Some v else attrs_get key rest
  end.

(** [tag.get(key)] *)
Definition get (n : Node) (key : string) : option string :=
  match n with
  | Tag _ attrs _ => attrs_get key attrs
  | _ => None
  end.

Definition class_eqb (a b : string_class) : bool :=
  match a, b with
  | CData, CData | Comment, Comment | Declaration, Declaration
  | Doctype, Doctype | ProcessingInstruction, ProcessingInstruction
  | Script, Script | Stylesheet, Stylesheet
  | TemplateString, TemplateString | RubyTextString, RubyTextString
  | RubyParenthesisString, RubyParenthesisString => true
  | _, _ => false
  end.

(** [HTMLTreeBuilder.DEFAULT_STRING_CONTAINERS] *)
Definition string_containers (name : string) : option string_class :=
  if String.eqb name "rt" then Some RubyTextString
  else if String.eqb name "rp" then Some RubyParenthesisString
  else if String.eqb name "style" then Some Stylesheet
  else if String.eqb name "script" then Some Script
  else if String.eqb name "template" then Some TemplateString
  else None.

(** [tag.interesting_string_types], as a test on the class of a string
    ([None] is [NavigableString] itself): the class of the container, or
    [(NavigableString, CData)] for any other tag.  The test of
    [_all_strings] is on the exact class. *)
Definition interesting_string_types (name : string)
           (c : option string_class) : bool :=
  match string_containers name, c with
  | Some k, Some c' => class_eqb c' k
  | Some _, None => false
  | None, None => true
  | None, Some CData => true
  | None, Some _ => false
  end.

(** [_all_strings]: the strings among the descendants whose class is one of
    [types], in document order, joined by the empty separator. *)
Fixpoint all_strings (types : option string_class -> bool) (n : Node)
  : string :=
  match n with
  | NavigableString t => if types None then t else EmptyString
  | SpecialString c t => if types (Some c) then t else EmptyString
  | Tag _ _ cs => String.concat EmptyString (map (all_strings types) cs)
  end.

(** [tag.get_text()]: nothing is stripped. *)
Definition get_text (n : Node) : string :=
  match n with
  | Tag name _ _ => all_strings (interesting_string_types name) n
  | NavigableString t => t
  | SpecialString _ t => t
  end.

(** *** The selectors, after soupsieve *)

(** [util.lower]: the letters A to Z only. *)
Definition lower_char (c : ascii) : ascii :=
  let n := N_of_ascii c in
  if ((65 <=? n) && (n <=? 90))%N then ascii_of_N (n + 32) else c.

Fixpoint lower (s : string) : string :=
  match s with
  | EmptyString => EmptyString
  | String c r => String (lower_char c) (lower r)
  end.

(** [match_attribute_name] in a document that is not XML: the value of the
    first attribute whose name is [key] whatever the case of its letters. *)
Fixpoint css_attribute (key : string) (attrs : list (string * string))
  : option string :=
  match attrs with
  | [] => None
  | (k, v) :: rest =>
      if String.eqb (lower k) (lower key) then Some v
      else css_attribute key rest
  end.

Definition line_feed : string := String (ascii_of_nat 10) EmptyString.

(** [[href="value"]] compiles to [re.compile('^%s$' % re.escape(value))]
    and is tried with [pattern.match]: the [$] also matches before a line
    feed that ends the attribute. *)
Definition value_matches (value attribute : string) : bool :=
  String.eqb attribute value || String.eqb attribute (value ++ line_feed).

(** The test of the selector [a[href="<category>"]], for a category that
    the selector holds as it is (see [plain]). *)
Definition is_category_anchor (category : string) (n : Node) : bool :=
  match n with
  | Tag name attrs _ =>
      String.eqb (lower name) "a"
      && match css_attribute "href" attrs with
         | Some v => value_matches category v
         | None => false
         end
  | _ => false
  end.

(** [select_one] below one node, in document order.  The match is returned
    with the siblings that follow it, which is what [find_next_sibling]
    walks. *)
Fixpoint select_one_in (category : string) (following : list Node) (n : Node)
  : option (Node * list Node) :=
  if is_category_anchor category n then Some (n, following)
  else
    match n with
    | Tag _ _ cs =>
        (fix scan (l : list Node) : option (Node * list Node) :=
           match l with
           | [] => None
           | c :: l' =>
               match select_one_in category l' c with
               | Some r => Some r
               | None => scan l'
               end
           end) cs
    | _ => None
    end.

(** The first match among the contents of the document and below them. *)
Fixpoint select_one_doc (category : string) (doc : list Node)
  : option (Node * list Node) :=
  match doc with
  | [] => None
  | n :: rest =>
      match select_one_in category rest n with
      | Some r => Some r
      | None => select_one_doc category rest
      end
  end.

(** A category that stands for itself between the double quotes of the
    selector: printable ASCII without the double quote and the backslash.
    Any other text may be read by soupsieve as an escape, as the end of the
    value, or as more of the selector. *)
Definition plain_char (c : ascii) : bool :=
  let n := N_of_ascii c in
  ((32 <=? n) && (n <=? 126) && negb (n =? 34) && negb (n =? 92))%N.

Fixpoint plain (s : string) : bool :=
  match s with
  | EmptyString => true
  | String c r => plain_char c && plain r
  end.

(** The [BeautifulSoup] object: the contents of the document, and what its
    [select_one] returns (a match with its following siblings, no match, or
    an exception such as [SelectorSyntaxError]) for a selector that this
    development does not read itself. *)
Record BeautifulSoup : Type := {
  contents : list Node;
  soupsieve : string -> result (option (Node * list Node))
}.

(** [f'a[href="{category}"]'] *)
Definition selector (category : string) : string :=
  "a[href=" ++ String (ascii_of_nat 34) (category
                                          ++ String (ascii_of_nat 34) "]").

(** [soup.select_one(f'a[href="{category}"]')] *)
Definition select_one (category : string) (soup : BeautifulSoup)
  : result (option (Node * list Node)) :=
  if plain category then ret (select_one_doc category (contents soup))
  else soupsieve soup (selector category).

(** [tag.find_next_sibling()]: the next sibling that is a tag. *)
Fixpoint find_next_sibling (following : list Node) : option Node :=
  match following with
  | [] => None
  | Tag name attrs cs :: _ => Some (Tag name attrs cs)
  | _ :: rest => find_next_sibling rest
  end.

(** The matches of [li > a] at and below [n], in document order, where
    [parent_is_li] tells whether the parent of [n] is an [li]. *)
Fixpoint select_li_a (parent_is_li : bool) (n : Node) : list Node :=
  match n with
  | Tag name _ cs =>
      ((if parent_is_li && String.eqb (lower name) "a" then [n] else [])
       ++ flat_map (select_li_a (String.eqb (lower name) "li")) cs)%list
  | _ => []
  end.

(** [tag.select("li > a")]: the matches among the descendants of [tag]. *)
Definition select (container : Node) : list Node :=
  match container with
  | Tag name _ cs => flat_map (select_li_a (String.eqb (lower name) "li")) cs
  | _ => []
  end.

End Soup.

(** ** The scraper *)

Module Scraper.

Import PyStr Strptime.

(** *** Capabilities *)

(** A Selenium element handle: [get_attribute(name)] and
    [find_element(By.TAG_NAME, tag)] ([None] stands for
    [NoSuchElementException]). *)
Inductive WebElement : Type :=
  Element { get_attribute : string -> option string;
            by_tag_name : string -> option WebElement }.

Definition find_element (e : WebElement) (tag : string) : result WebElement :=
  match by_tag_name e tag with
  | Some c => ret c
  | None => raise NoSuchElementException
  end.

(** What the run reads from outside: the page [requests.get] fetches (as
    the tree BeautifulSoup builds from it), what the driver finds after
    [driver.get(url)] and the bounded wait, and the clock. *)
Record World : Type := {
  requests_get : string -> result Soup.BeautifulSoup;
  driver_wait : string -> result (list WebElement);
  now : nat -> datetime
}.

(** *** State *)

(** An entry of [parsed_flyers]. *)
Record FlyerRecord : Type := {
  title : string;
  thumbnail : option string;
  shop_name : string;
  valid_from : string;
  valid_to : string;
  parsed_time : string
}.

Inductive level : Type := INFO | WARNING | ERROR.

(** A [logging] call: the message, and the exception it formats, if any. *)
Record log_entry : Type := {
  lvl : level;
  message : string;
  cause : option exn
}.

Inductive driver_event : Type :=
| Chrome
| Get (url : string)
| Quit.

(** A [FlyerParser] object, the calls made on its driver, the log, and the
    number of clock readings so far. *)
Record state : Type := {
  base_url : string;
  parsed_flyers : list FlyerRecord;
  driver : list driver_event;
  log : list log_entry;
  ticks : nat
}.

Definition logging (l : level) (m : string) (c : option exn) (st : state)
  : state :=
  {| base_url := base_url st;
     parsed_flyers := parsed_flyers st;
     driver := driver st;
     log := (log st ++ [ {| lvl := l; message := m; cause := c |} ])%list;
     ticks := ticks st |}.

Definition drive (ev : driver_event) (st : state) : state :=
  {| base_url := base_url st;
     parsed_flyers := parsed_flyers st;
     driver := (driver st ++ [ev])%list;
     log := log st;
     ticks := ticks st |}.

Definition str (n : nat) : string := NilEmpty.string_of_uint (Nat.to_uint n).

(** [__init__] *)
Definition init (url : string) : state :=
  {| base_url := url;
     parsed_flyers := [];
     driver := [Chrome];
     log := [];
     ticks := O |}.

(** *** [parse_flyer] *)

(** Lines 140-152: the validity range of a flyer. *)
Definition parse_validity_range (flyer_validity_range : string)
  : result (string * string) :=
  if contains "von" flyer_validity_range
  then
    let dates := split " " flyer_validity_range in
    tok <- index dates 2 ;;
    d <- strptime tok ;;
    ret (strftime_date d, EmptyString)
  else
    let dates := split " - " flyer_validity_range in
    tok0 <- index dates 0 ;;
    d0 <- strptime tok0 ;;
    tok1 <- index dates 1 ;;
    d1 <- strptime tok1 ;;
    ret (strftime_date d0, strftime_date d1).

(** [e.get_attribute("textContent").strip()] *)
Definition text_content (e : WebElement) : result string :=
  match get_attribute e "textContent" with
  | Some t => ret (strip t)
  | None => raise AttributeError
  end.

(** The body of the [try] up to the [append]. *)
Definition extract (flyer : WebElement)
  : result (string * option string * string * string) :=
  h2 <- find_element flyer "h2" ;;
  title <- text_content h2 ;;
  thumbnail <- find_element flyer "img" ;;
  let src :=
    or_ (get_attribute thumbnail "src") (get_attribute thumbnail "data-src") in
  span <- find_element flyer "span" ;;
  flyer_validity_range <- text_content span ;;
  '(valid_from, valid_to) <- parse_validity_range flyer_validity_range ;;
  ret (title, src, valid_from, valid_to).

Definition append (r : FlyerRecord) (st : state) : state :=
  {| base_url := base_url st;
     parsed_flyers := (parsed_flyers st ++ [r])%list;
     driver := driver st;
     log := log st;
     ticks := ticks st |}.

(** [datetime.now()] *)
Definition tick (st : state) : state :=
  {| base_url := base_url st;
     parsed_flyers := parsed_flyers st;
     driver := driver st;
     log := log st;
     ticks := S (ticks st) |}.

Definition parse_flyer (w : World) (flyer : WebElement) (name : string)
           (st : state) : state :=
  match extract flyer with
  | inl (t, src, from, to) =>
      append {| title := t;
                thumbnail := src;
                shop_name := name;
                valid_from := from;
                valid_to := to;
                parsed_time := strftime_datetime (now w (ticks st)) |}
             (tick st)
  | inr e =>
      logging ERROR ("Failed to parse flyer in " ++ name ++ ", Error: ")
              (Some e) st
  end.

(** *** [parse_category_shop] *)

(** [for flyer in flyers: self.parse_flyer(flyer, shop_name)] *)
Definition parse_flyers (w : World) (flyers : list WebElement) (name : string)
           (st : state) : state :=
  fold_left (fun s flyer => parse_flyer w flyer name s) flyers st.

(** [shop] is the anchor's [href], which [link.get] leaves [None] when the
    attribute is missing; [base_url + None] is a [TypeError].  After the
    handler of lines 114-115 the name [flyers] is unbound, and the loop
    header raises. *)
Definition parse_category_shop (w : World) (shop : option string)
           (name : string) (st : state) : state * result unit :=
  let '(st1, found) :=
    match shop with
    | None => (st, raise TypeError)
    | Some path =>
        let url := base_url st ++ path in
        (drive (Get url) st, driver_wait w url)
    end in
  match found with
  | inl flyers =>
      let st2 := parse_flyers w flyers name st1 in
      (logging INFO ("Parsing " ++ name ++ " flyers done, number of flyers parsed: "
                     ++ str (List.length flyers)) None st2,
       ret tt)
  | inr TimeoutException =>
      (logging WARNING ("Flyers not found for shop " ++ name) None st1, ret tt)
  | inr e =>
      (logging ERROR "Error occured: " (Some e) st1, raise UnboundLocalError)
  end.

(** *** [parse_flyers_category] *)

(** Lines 76-82: the (href, text) pair of every link of the dropdown. *)
Definition discover (soup : Soup.BeautifulSoup) (category : string)
  : result (list (option string * string)) :=
  match Soup.select_one category soup with
  | inr e => raise e
  | inl None => raise AttributeError
  | inl (Some (_, following)) =>
      match Soup.find_next_sibling following with
      | None => raise AttributeError
      | Some category_dropdown =>
          ret (map (fun link => (Soup.get link "href", Soup.get_text link))
                   (Soup.select category_dropdown))
      end
  end.

(** The loop of lines 81-82; an exception leaves it. *)
Fixpoint visit (w : World) (shops : list (option string * string))
         (st : state) : state * result unit :=
  match shops with
  | [] => (st, ret tt)
  | (shop, name) :: rest =>
      match parse_category_shop w shop name st with
      | (st', inl _) => visit w rest st'
      | (st', inr e) => (st', raise e)
      end
  end.

Definition reset (st : state) : state :=
  {| base_url := base_url st;
     parsed_flyers := [];
     driver := driver st;
     log := log st;
     ticks := ticks st |}.

(** The [try] block. *)
Definition category_body (w : World) (category : string) (st : state)
  : state * result unit :=
  let st0 := reset st in
  let webpage_url := base_url st0 ++ category in
  match requests_get w webpage_url with
  | inr e => (st0, raise e)
  | inl soup =>
      let st1 :=
        logging INFO ("Website " ++ webpage_url ++ " has been successfully parsed")
                None st0 in
      match discover soup category with
      | inr e => (st1, raise e)
      | inl shops => visit w shops st1
      end
  end.

(** The two [except] clauses. *)
Definition category_handler (category : string) (e : exn) (st : state)
  : state :=
  match e with
  | RequestException =>
      logging ERROR ("Parsing failed: unable to get webpage at "
                     ++ base_url st ++ category ++ ", Error: ") (Some e) st
  | _ => logging ERROR "Error occured: " (Some e) st
  end.

(** The [finally] clause. *)
Definition category_finally (st : state) : state :=
  let st' := drive Quit st in
  logging INFO ("Parsing completed, number of flyers parsed: "
                ++ str (List.length (parsed_flyers st'))) None st'.

Definition parse_flyers_category (w : World) (category : string) (st : state)
  : state :=
  let '(st1, r) := category_body w category st in
  let st2 := match r with
             | inl _ => st1
             | inr e => category_handler category e st1
             end in
  category_finally st2.

(** The script: [web_parser = FlyerParser(BASE_URL)] followed by
    [web_parser.parse_flyers_category(category)]. *)
Definition run (w : World) (url category : string) : state :=
  parse_flyers_category w category (init url).

End Scraper.

(** ** Date tokens, as the validity texts write them *)

Module Token.

Import Strptime.

Definition valid_date (dt : date) : Prop :=
  check_date (year dt) (month dt) (day dt) = true.

Definition digit (n : Z) : string := String (digit_char n) EmptyString.

(** A day is written with two digits, or, below ten, with one digit that a
    blank may precede. *)
Definition day_text (d : Z) (t : string) : Prop :=
  t = pad2 d \/ (d < 10 /\ (t = digit d \/ t = " " ++ digit d)).

(** A month is written with two digits, or, below ten, with one. *)
Definition month_text (m : Z) (t : string) : Prop :=
  t = pad2 m \/ (m < 10 /\ t = digit m).

(** [tok] writes the date [dt] as day.month.year. *)
Definition written (tok : string) (dt : date) : Prop :=
  exists td tm,
    day_text (day dt) td /\ month_text (month dt) tm
    /\ tok = td ++ "." ++ tm ++ "." ++ pad4 (year dt).

Definition valid_date_token (tok : string) : Prop :=
  exists dt, valid_date dt /\ written tok dt.

(** The two-digit form DD.MM.YYYY. *)
Definition ddmmyyyy (dt : date) : string :=
  pad2 (day dt) ++ "." ++ pad2 (month dt) ++ "." ++ pad4 (year dt).

(** A calendar date in the form YYYY-MM-DD. *)
Definition iso_date (s : string) : Prop :=
  exists dt, valid_date dt
             /\ s = pad4 (year dt) ++ "-" ++ pad2 (month dt) ++ "-"
                    ++ pad2 (day dt).

(** [iso_date], as a test on the ten characters. *)
Definition is_iso_date (s : string) : bool :=
  match s with
  | String y1 (String y2 (String y3 (String y4 (String h1
      (String m1 (String m2 (String h2 (String d1 (String d2 EmptyString)))))))))
    => match int_digits 0 (String y1 (String y2 (String y3 (String y4 EmptyString)))),
             int_digits 0 (String m1 (String m2 EmptyString)),
             int_digits 0 (String d1 (String d2 EmptyString)) with
       | Some y, Some m, Some d =>
           Ascii.eqb h1 "-" && Ascii.eqb h2 "-" && check_date y m d
       | _, _, _ => false
       end
  | _ => false
  end.

(** A calendar date as ["%Y-%m-%d"] prints it: the year without leading
    zeros, the month and the day in two digits; from the year 1000 on this
    is the form YYYY-MM-DD. *)
Fixpoint leading_digits (s : string) : string * string :=
  match s with
  | EmptyString => (EmptyString, EmptyString)
  | String c r =>
      if between "0" "9" c
      then let (ds, rest) := leading_digits r in (String c ds, rest)
      else (EmptyString, s)
  end.

Definition is_date_text (s : string) : bool :=
  let (y, rest) := leading_digits s in
  match y, rest with
  | String y1 _,
    String h1 (String m1 (String m2 (String h2 (String d1 (String d2
      EmptyString))))) =>
      match int_digits 0 y,
            int_digits 0 (String m1 (String m2 EmptyString)),
            int_digits 0 (String d1 (String d2 EmptyString)) with
      | Some yv, Some mv, Some dv =>
          negb (Ascii.eqb y1 "0") && Ascii.eqb h1 "-" && Ascii.eqb h2 "-"
          && check_date yv mv dv
      | _, _, _ => false
      end
  | _, _ => false
  end.

Definition date_text (s : string) : Prop :=
  is_date_text s = true
  /\ (String.length s = 10%nat -> is_iso_date s = true).

End Token.

(** ** Character tests used in the statements *)

Module Chars.

Fixpoint all_chars (p : ascii -> bool) (s : string) : bool :=
  match s with
  | EmptyString => true
  | String c r => p c && all_chars p r
  end.

Definition is_not (c : ascii) (x : ascii) : bool := negb (Ascii.eqb c x).

(** The characters a date token is made of. *)
Definition token_char (c : ascii) : bool :=
  Strptime.between "0" "9" c || Ascii.eqb "." c || Ascii.eqb " " c.

(** [s[k:]] *)
Fixpoint drop (k : nat) (s : string) : string :=
  match k, s with
  | S k', String _ r => drop k' r
  | _, _ => s
  end.

End Chars.

(** ** Notions the properties are stated with *)

Module Props.

Import PyStr Strptime Token Scraper.

(** The text holds two valid date tokens with [" - "] between them. *)
Definition holds_date_pair (text : string) : Prop :=
  exists pre t1 t2 post,
    text = pre ++ t1 ++ " - " ++ t2 ++ post
    /\ valid_date_token t1 /\ valid_date_token t2.

(** The text has neither the marker nor a pair of dates. *)
Definition lacks_dates (text : string) : Prop :=
  contains "von" text = false /\ ~ holds_date_pair text.

(** The field that is read as a date is missing or is no valid date token:
    the third blank-separated field of a text with the marker, one of the
    first two hyphen-separated fields otherwise. *)
Definition malformed_date (text : string) : Prop :=
  if contains "von" text
  then forall tok, nth_error (split " " text) 2 = Some tok ->
                   ~ valid_date_token tok
  else exists i, (i < 2)%nat
                 /\ forall tok, nth_error (split " - " text) i = Some tok ->
                                ~ valid_date_token tok.

(** A record without its time stamp. *)
Definition untimed (r : FlyerRecord)
  : string * option string * string * string * string :=
  (title r, thumbnail r, shop_name r, valid_from r, valid_to r).

(** What one element contributes to the output of a shop. *)
Definition outcome (name : string) (flyer : WebElement)
  : list (string * option string * string * string * string) :=
  match extract flyer with
  | inl (t, src, from, to) => [(t, src, name, from, to)]
  | inr _ => []
  end.

(** What [parse_flyer] adds to [parsed_flyers]. *)
Definition added_by (w : World) (flyer : WebElement) (name : string)
           (st : state) : list FlyerRecord :=
  match extract flyer with
  | inl (t, src, from, to) =>
      [ {| title := t; thumbnail := src; shop_name := name;
           valid_from := from; valid_to := to;
           parsed_time := strftime_datetime (now w (ticks st)) |} ]
  | inr _ => []
  end.

(** The three ways out of [parse_category_shop]. *)
Inductive shop_outcome (w : World) (shop : option string) (name : string)
          (st : state) : state * result unit -> Prop :=
| shop_found path flyers :
    shop = Some path ->
    driver_wait w (base_url st ++ path) = inl flyers ->
    shop_outcome w shop name st
      (logging INFO ("Parsing " ++ name
                     ++ " flyers done, number of flyers parsed: "
                     ++ str (List.length flyers)) None
               (parse_flyers w flyers name
                             (drive (Get (base_url st ++ path)) st)),
       inl tt)
| shop_timeout path :
    shop = Some path ->
    driver_wait w (base_url st ++ path) = inr TimeoutException ->
    shop_outcome w shop name st
      (logging WARNING ("Flyers not found for shop " ++ name) None
               (drive (Get (base_url st ++ path)) st),
       inl tt)
| shop_error e :
    e <> TimeoutException ->
    match shop with
    | Some path => driver_wait w (base_url st ++ path) = inr e
    | None => e = TypeError
    end ->
    shop_outcome w shop name st
      (logging ERROR "Error occured: " (Some e)
               match shop with
               | Some path => drive (Get (base_url st ++ path)) st
               | None => st
               end,
       inr UnboundLocalError).

(** Every record holds a calendar date in [valid_from]. *)
Definition dated (st : state) : Prop :=
  Forall (fun r => date_text (valid_from r)) (parsed_flyers st).

(** Two objects that agree on all but the driver calls and the log. *)
Definition same_output (s s' : state) : Prop :=
  base_url s = base_url s' /\ parsed_flyers s = parsed_flyers s'
  /\ ticks s = ticks s'.

(** Two worlds with the same browser and the same clock. *)
Definition same_browser (w w' : World) : Prop :=
  (forall url, driver_wait w url = driver_wait w' url)
  /\ (forall k, now w k = now w' k).

(** How often a run starts and quits the browser. *)
Definition is_chrome (ev : driver_event) : bool :=
  match ev with Chrome => true | _ => false end.

Definition is_quit (ev : driver_event) : bool :=
  match ev with Quit => true | _ => false end.

Definition acquisitions (trace : list driver_event) : nat :=
  List.length (filter is_chrome trace).

Definition releases (trace : list driver_event) : nat :=
  List.length (filter is_quit trace).

(** The image element carries no source. *)
Definition sourceless (img : WebElement) : Prop :=
  (get_attribute img "src" = None \/ get_attribute img "src" = Some EmptyString)
  /\ get_attribute img "data-src" = None.

End Props.

(** ** A small site, for the examples *)

Module Demo.

Import Soup Scraper Strptime.

Definition anchor : Node :=
  Tag "a" [("href", "/hypermarkte/")] [NavigableString "Hypermarkte"].

Definition dropdown (name : string) : Node :=
  Tag "ul" []
    [ Tag "li" [] [Tag "a" [("href", "/a/")] [NavigableString name]];
      Tag "li" [] [Tag "a" [("href", "/b/")] [NavigableString "Beta"]] ].

(** The document as [BeautifulSoup] holds it; the selectors of the examples
    are plain. *)
Definition soup_of (doc : list Node) : BeautifulSoup :=
  {| contents := doc; soupsieve := fun _ => inr ValueError |}.

Definition page (name : string) : BeautifulSoup :=
  soup_of [ Tag "nav" [] [ anchor; NavigableString " "; dropdown name ] ].

Definition page_without_beta : BeautifulSoup :=
  soup_of
    [ Tag "nav" []
        [ Tag "a" [("href", "/hypermarkte/")] [NavigableString "Hypermarkte"];
          Tag "ul" []
            [ Tag "li" [] [Tag "a" [("href", "/a/")] [NavigableString "Alpha"]]
            ] ] ].

Definition leaf (attribute text : string) : WebElement :=
  Element (fun k => if String.eqb k attribute then Some text else None)
          (fun _ => None).

Definition bare : WebElement := Element (fun _ => None) (fun _ => None).

Definition figure (img : option WebElement) (range : string) : WebElement :=
  Element (fun _ => None)
          (fun t => if String.eqb t "h2" then Some (leaf "textContent" " Angebote ")
                    else if String.eqb t "img" then img
                    else if String.eqb t "span"
                         then Some (leaf "textContent" range)
                         else None).

Definition picture : WebElement := leaf "data-src" "https://img/1.jpg".

Definition flyers_of_alpha : list WebElement :=
  [ figure (Some picture) "01.06.2024 - 15.06.2024";
    figure None "01.06.2024 - 15.06.2024";
    figure (Some picture) "von Montag 03.06.2024" ].

Definition noon : datetime := DateTime (Date 2024 6 1) 12 0 0.

Definition world (soup : BeautifulSoup) (alpha : list WebElement) : World :=
  {| requests_get := fun url =>
       if String.eqb url "https://site/hypermarkte/" then inl soup
       else inr RequestException;
     driver_wait := fun url =>
       if String.eqb url "https://site/a/" then inl alpha
       else inr TimeoutException;
     now := fun _ => noon |}.

End Demo.


(** ** [json.dump] of the parsed flyers (line 65) *)

Module Json.

Import PyStr Scraper.

Definition quote : ascii := ascii_of_nat 34.
Definition backslash : ascii := ascii_of_nat 92.
Definition newline : ascii := ascii_of_nat 10.

(** One digit of ['{0:04x}'.format(i)]. *)
Definition hex_digit (n : N) : ascii :=
  if (n <? 10)%N then ascii_of_N (48 + n) else ascii_of_N (87 + n).

(** [ESCAPE_DCT]: the replacement of a character that [ESCAPE] matches, and
    the character itself otherwise. *)
Definition escape_char (c : ascii) : string :=
  let n := N_of_ascii c in
  if (n =? 92)%N then String backslash (String backslash EmptyString)
  else if (n =? 34)%N then String backslash (String quote EmptyString)
  else if (n =? 8)%N then String backslash "b"
  else if (n =? 12)%N then String backslash "f"
  else if (n =? 10)%N then String backslash "n"
  else if (n =? 13)%N then String backslash "r"
  else if (n =? 9)%N then String backslash "t"
  else if (n <? 32)%N
       then String backslash
              ("u00" ++ String (hex_digit (n / 16))
                          (String (hex_digit (n mod 16)) EmptyString))
       else String c EmptyString.

(** [ESCAPE.sub(replace, s)] *)
Fixpoint escape (s : string) : string :=
  match s with
  | EmptyString => EmptyString
  | String c r => escape_char c ++ escape r
  end.

(** [encode_basestring(s)], the encoder of [ensure_ascii=False]. *)
Definition encode_basestring (s : string) : string :=
  String quote (escape s ++ String quote EmptyString).

(** A value of a record: a [str] or [None]. *)
Definition encode_value (v : option string) : string :=
  match v with
  | Some s => encode_basestring s
  | None => "null"
  end.

(** ['\n' + _indent * level] with [indent=4]. *)
Fixpoint spaces (n : nat) : string :=
  match n with
  | O => EmptyString
  | S k => String " " (spaces k)
  end.

Definition newline_indent (level : nat) : string :=
  String newline (spaces (4 * level)).

(** The keys of a record, in the order of the dict literal of lines 155-162. *)
Definition items (r : FlyerRecord) : list (string * option string) :=
  [ ("title", Some (title r));
    ("thumbnail", thumbnail r);
    ("shop_name", Some (shop_name r));
    ("valid_from", Some (valid_from r));
    ("valid_to", Some (valid_to r));
    ("parsed_time", Some (parsed_time r)) ].

Definition encode_item (kv : string * option string) : string :=
  encode_basestring (fst kv) ++ ": " ++ encode_value (snd kv).

(** [_iterencode_dict(dct, level)] *)
Definition iterencode_dict (level : nat) (dct : list (string * option string))
  : string :=
  match dct with
  | [] => "{}"
  | _ =>
      "{" ++ newline_indent (S level)
      ++ join ("," ++ newline_indent (S level)) (map encode_item dct)
      ++ newline_indent level ++ "}"
  end.

(** [_iterencode_list(lst, level)] *)
Definition iterencode_list (level : nat) (lst : list FlyerRecord) : string :=
  match lst with
  | [] => "[]"
  | _ =>
      "[" ++ newline_indent (S level)
      ++ join ("," ++ newline_indent (S level))
              (map (fun r => iterencode_dict (S level) (items r)) lst)
      ++ newline_indent level ++ "]"
  end.

(** What [json.dump(parsed_flyers, f, ensure_ascii=False, indent=4)] writes. *)
Definition dump (parsed : list FlyerRecord) : string := iterencode_list 0 parsed.

(** Reads a string literal back, from behind its opening quote: the text and
    what follows the closing quote. *)
Definition hex_value (c : ascii) : option N :=
  let n := N_of_ascii c in
  if ((48 <=? n) && (n <=? 57))%N then Some (n - 48)%N
  else if ((97 <=? n) && (n <=? 102))%N then Some (n - 87)%N
  else None.

Definition named_escape (c : ascii) : option ascii :=
  let n := N_of_ascii c in
  if (n =? 92)%N then Some backslash
  else if (n =? 34)%N then Some quote
  else if (n =? 98)%N then Some (ascii_of_nat 8)
  else if (n =? 102)%N then Some (ascii_of_nat 12)
  else if (n =? 110)%N then Some (ascii_of_nat 10)
  else if (n =? 114)%N then Some (ascii_of_nat 13)
  else if (n =? 116)%N then Some (ascii_of_nat 9)
  else None.

Definition push (c : option ascii) (r : option (string * string))
  : option (string * string) :=
  match c, r with
  | Some a, Some (t, rest) => Some (String a t, rest)
  | _, _ => None
  end.

Fixpoint read_string (s : string) : option (string * string) :=
  match s with
  | EmptyString => None
  | String c r =>
      if Ascii.eqb c quote then Some (EmptyString, r)
      else if Ascii.eqb c backslash
           then match r with
                | String "u" (String "0" (String "0" (String h (String l r')))) =>
                    push match hex_value h, hex_value l with
                         | Some a, Some b => Some (ascii_of_N (16 * a + b))
                         | _, _ => None
                         end
                         (read_string r')
                | String e r' => push (named_escape e) (read_string r')
                | EmptyString => None
                end
           else push (Some c) (read_string r)
  end.

End Json.

(** ** The script (lines 61-67 and 168-186) *)

Module Script.

Import PyStr Scraper Json.

(** [open(file_name, "w")] fails with an [IOError]. *)
Inductive os_exn : Type := IOError.

(** A [logging] call of [write_flyers_to_file]. *)
Record io_entry : Type := {
  io_lvl : level;
  io_message : string;
  io_cause : option os_exn
}.

(** The parser object, the files, and what [write_flyers_to_file] logged. *)
Record machine : Type := {
  parser : state;
  files : string -> option string;
  io_log : list io_entry
}.

Definition io_logging (l : level) (m : string) (c : option os_exn)
           (mc : machine) : machine :=
  {| parser := parser mc;
     files := files mc;
     io_log := (io_log mc
                ++ [ {| io_lvl := l; io_message := m; io_cause := c |} ])%list |}.

(** The file [file_name] holds [content]; the others are as they were. *)
Definition store (file_name content : string) (mc : machine) : machine :=
  {| parser := parser mc;
     files := fun name => if String.eqb name file_name then Some content
                          else files mc name;
     io_log := io_log mc |}.

(** [write_flyers_to_file]: [writable] tells whether [open] succeeds. *)
Definition write_flyers_to_file (writable : string -> bool)
           (file_name : string) (mc : machine) : machine :=
  let mc1 := io_logging INFO "Writing flyers data to file" None mc in
  if writable file_name
  then store file_name (dump (parsed_flyers (parser mc1))) mc1
  else io_logging ERROR "Failed to write to file, Error: " (Some IOError) mc1.

Definition BASE_URL : string := "https://www.prospektmaschine.de".

(** [parser.parse_args()]: the two options with their defaults. *)
Record args : Type := { category : string; output : string }.

Definition parse_args (category output : option string) : args :=
  {| category := match category with Some c => c | None => "/hypermarkte/" end;
     output := match output with Some o => o | None => "parsed_flyers.json" end
  |}.

(** The body of [if __name__ == "__main__"]. *)
Definition main (w : World) (writable : string -> bool)
           (disk : string -> option string) (a : args) : machine :=
  let web_parser := init BASE_URL in
  let web_parser := parse_flyers_category w (category a) web_parser in
  write_flyers_to_file writable (output a)
    {| parser := web_parser; files := disk; io_log := [] |}.

End Script.

(** ** A site whose first shop breaks the browser *)

Module Demo2.

Import Soup Scraper.

Definition crashing (soup : BeautifulSoup) : World :=
  {| requests_get := fun url =>
       if String.eqb url "https://site/hypermarkte/" then inl soup
       else inr RequestException;
     driver_wait := fun url =>
       if String.eqb url "https://site/a/" then inr WebDriverException
       else inr TimeoutException;
     now := fun _ => Demo.noon |}.

Definition always (ok : bool) (file_name : string) : bool := ok.

(** A shop whose only flyer is dated in the year 999. *)
Definition old_flyers : list WebElement :=
  [ Demo.figure (Some Demo.picture) "von Montag 03.06.0999" ].

(** A link whose text comes with blanks, a script and a comment. *)
Definition noisy_link : Node :=
  Tag "a" [("href", "/a/")]
      [ NavigableString " Alpha ";
        Tag "script" [] [SpecialString Script "track()"];
        SpecialString Comment "first shop" ].

Definition noisy_dropdown : Node := Tag "ul" [] [ Tag "li" [] [ noisy_link ] ].

Definition noisy_page : BeautifulSoup :=
  Demo.soup_of
    [ Tag "nav" []
        [ Demo.anchor; SpecialString Comment "menu"; NavigableString " ";
          noisy_dropdown ] ].

Definition empty_disk (file_name : string) : option string := None.

End Demo2.

(** ** More notions for the properties *)

Module Props2.

Import PyStr Strptime Token Scraper Soup.

(** Induction on a tree, with the hypothesis for every child. *)
Fixpoint Node_forall (P : Node -> Prop)
         (Hs : forall t, P (NavigableString t))
         (Hc : forall c t, P (SpecialString c t))
         (Ht : forall name attrs cs, Forall P cs -> P (Tag name attrs cs))
         (n : Node) : P n :=
  match n with
  | NavigableString t => Hs t
  | SpecialString c t => Hc c t
  | Tag name attrs cs =>
      Ht name attrs cs
         ((fix all (l : list Node) : Forall P l :=
             match l with
             | [] => Forall_nil P
             | c :: l' => Forall_cons c (Node_forall P Hs Hc Ht c) (all l')
             end) cs)
  end.

(** [valid_to] is empty or a calendar date. *)
Definition bounded (st : state) : Prop :=
  Forall (fun r => valid_to r = EmptyString \/ date_text (valid_to r))
         (parsed_flyers st).


(** The records are stamped with the clock readings [from], [from + 1], ... *)
Fixpoint stamped (w : World) (from : nat) (records : list FlyerRecord) : Prop :=
  match records with
  | [] => True
  | r :: rest =>
      parsed_time r = strftime_datetime (now w from) /\ stamped w (S from) rest
  end.

(** The number of [logging.error] calls in a log. *)
Definition is_error (e : log_entry) : bool :=
  match lvl e with
  | ERROR => true
  | _ => false
  end.

Definition errors (l : list log_entry) : nat := List.length (filter is_error l).

(** A shop whose page makes [parse_category_shop] raise: the link has no
    [href], or the browser raises something other than a timeout. *)
Definition breaks (w : World) (url : string) (shop : option string) (e : exn)
  : Prop :=
  e <> TimeoutException
  /\ match shop with
     | Some path => driver_wait w (url ++ path) = inr e
     | None => e = TypeError
     end.

(** The records are stamped from reading [k] on, and each reading made a
    record. *)
Definition clocked (w : World) (k : nat) (st : state) : Prop :=
  stamped w k (parsed_flyers st)
  /\ ticks st = (k + List.length (parsed_flyers st))%nat.

(** An anchor element (the case of the letters of a tag name does not
    count in a selector). *)
Definition is_anchor (n : Node) : Prop :=
  exists name attrs cs, n = Tag name attrs cs /\ lower name = "a".

(** A string, of any class. *)
Definition is_string (n : Node) : Prop :=
  match n with
  | Tag _ _ _ => False
  | _ => True
  end.

Definition attributes (n : Node) : list (string * string) :=
  match n with
  | Tag _ attrs _ => attrs
  | _ => []
  end.

(** A selector reads [value] for the attribute [key]: the value of the
    first attribute whose name is [key], the case of the letters apart. *)
Definition reads (attrs : list (string * string)) (key value : string)
  : Prop :=
  exists before k after,
    attrs = (before ++ (k, value) :: after)%list
    /\ lower k = lower key
    /\ Forall (fun kv => lower (fst kv) <> lower key) before.

(** The attribute value fits the value of the selector: it is that value,
    or that value and one line feed. *)
Definition fits (category value : string) : Prop :=
  value = category \/ value = category ++ line_feed.

(** An [a] element whose [href] fits the category. *)
Definition category_anchor (category : string) (n : Node) : Prop :=
  is_anchor n
  /\ exists value, reads (attributes n) "href" value /\ fits category value.

(** [d] is [n] or is below it. *)
Inductive below : Node -> Node -> Prop :=
| below_self n : below n n
| below_child name attrs cs c d :
    In c cs -> below c d -> below (Tag name attrs cs) d.

(** Neither [n] nor a node below it has [P]. *)
Definition none_below (P : Node -> Prop) (n : Node) : Prop :=
  forall d, below n d -> ~ P d.

(** [n] is in the document, among the contents of the document or of an
    element, and [following] are the siblings after it. *)
Inductive sits : list Node -> Node -> list Node -> Prop :=
| sits_here before n following :
    sits (before ++ n :: following) n following
| sits_below before name attrs cs after n following :
    sits cs n following ->
    sits (before ++ Tag name attrs cs :: after) n following.

(** [n] is the first node of the document, in document order, that has
    [P], and [following] are the siblings after it. *)
Inductive first (P : Node -> Prop) : list Node -> Node -> list Node -> Prop :=
| first_here before n following :
    Forall (none_below P) before -> P n ->
    first P (before ++ n :: following) n following
| first_below before name attrs cs after n following :
    Forall (none_below P) before -> ~ P (Tag name attrs cs) ->
    first P cs n following ->
    first P (before ++ Tag name attrs cs :: after) n following.

(** [link] is an [a] element that is a child of an [li] element, and that
    [li] element is [container] or is below it. *)
Inductive li_link : Node -> Node -> Prop :=
| li_link_child parent pattrs cs link :
    lower parent = "li" -> is_anchor link -> In link cs ->
    li_link (Tag parent pattrs cs) link
| li_link_below parent pattrs cs c link :
    In c cs -> li_link c link ->
    li_link (Tag parent pattrs cs) link.

(** Only blanks. *)
Definition blank (s : string) : Prop :=
  Chars.all_chars isspace s = true.

(** The control characters, below U+0020. *)
Definition printable (c : ascii) : bool := (32 <=? N_of_ascii c)%N.

End Props2.

(** * Facts about the string methods *)

Module PyStrFacts.

Import PyStr Chars.

Example strip_both_ends :
  strip "  01.06.2024 - 15.06.2024 " = "01.06.2024 - 15.06.2024".
Proof. reflexivity. Qed.

Example split_keeps_empty_fields :
  split " " " a  b " = [""; "a"; ""; "b"; ""].
Proof. reflexivity. Qed.

Example split_hyphen :
  split " - " "01.06.2024 - 15.06.2024" = ["01.06.2024"; "15.06.2024"].
Proof. reflexivity. Qed.

Example split_leftmost : split "aa" "aaa" = [""; "a"].
Proof. reflexivity. Qed.

Lemma all_chars_app p a b :
  all_chars p (a ++ b) = all_chars p a && all_chars p b.
Proof.
  induction a as [|c a IH]; simpl; [reflexivity|].
  rewrite IH. apply andb_assoc.
Qed.

Lemma all_chars_weaken (p q : ascii -> bool) s :
  (forall c, p c = true -> q c = true) ->
  all_chars p s = true -> all_chars q s = true.
Proof.
  intros Hpq. induction s as [|c s IH]; simpl; [reflexivity|].
  intros H. apply andb_true_iff in H as [Hc Hs].
  rewrite (Hpq _ Hc), (IH Hs). reflexivity.
Qed.

Lemma app_assoc (a b c : string) : (a ++ b) ++ c = a ++ b ++ c.
Proof. induction a as [|x a IH]; simpl; [reflexivity|]. now rewrite IH. Qed.

Lemma app_empty_r (a : string) : a ++ "" = a.
Proof. induction a as [|x a IH]; simpl; [reflexivity|]. now rewrite IH. Qed.

(** *** [in] *)

Lemma contains_without_first c needle s :
  all_chars (is_not c) s = true ->
  contains (String c needle) s = false.
Proof.
  induction s as [|x s IH]; simpl; [reflexivity|].
  intros H. apply andb_true_iff in H as [Hx Hs].
  unfold is_not in Hx. apply negb_true_iff in Hx. rewrite Hx. simpl.
  apply IH, Hs.
Qed.

(** *** [split] *)

(** A field without blanks ends at the first blank. *)
Lemma split_blank_field w rest :
  all_chars (is_not " ") w = true ->
  split " " (w ++ " " ++ rest) = w :: split " " rest.
Proof.
  unfold split. induction w as [|a w IH]; intros H.
  - reflexivity.
  - simpl in H. apply andb_true_iff in H as [Ha Hw].
    unfold is_not in Ha. apply negb_true_iff in Ha.
    change (String a w ++ " " ++ rest) with (String a (w ++ " " ++ rest)).
    cbn [split_from startswith]. rewrite Ha. cbn [andb].
    rewrite (IH Hw). reflexivity.
Qed.

Lemma split_blank_last w :
  all_chars (is_not " ") w = true -> split " " w = [w].
Proof.
  unfold split. induction w as [|a w IH]; intros H.
  - reflexivity.
  - simpl in H. apply andb_true_iff in H as [Ha Hw].
    unfold is_not in Ha. apply negb_true_iff in Ha.
    cbn [split_from startswith]. rewrite Ha. cbn [andb].
    rewrite (IH Hw). reflexivity.
Qed.

(** A field without hyphens ends at the first [" - "]. *)
Lemma split_hyphen_field w rest :
  all_chars (is_not "-") w = true ->
  split " - " (w ++ " - " ++ rest) = w :: split " - " rest.
Proof.
  unfold split. induction w as [|a w IH]; intros H.
  - reflexivity.
  - simpl in H. apply andb_true_iff in H as [Ha Hw].
    change (String a w ++ " - " ++ rest) with (String a (w ++ " - " ++ rest)).
    cbn [split_from].
    replace (startswith " - " (String a (w ++ " - " ++ rest))) with false.
    + rewrite (IH Hw). reflexivity.
    + symmetry. cbn [startswith].
      destruct w as [|b w].
      * simpl. apply andb_false_r.
      * simpl in Hw. apply andb_true_iff in Hw as [Hb _].
        unfold is_not in Hb. apply negb_true_iff in Hb.
        cbn [append startswith]. rewrite Hb. apply andb_false_r.
Qed.

Lemma split_hyphen_last w :
  all_chars (is_not "-") w = true -> split " - " w = [w].
Proof.
  unfold split. induction w as [|a w IH]; intros H.
  - reflexivity.
  - simpl in H. apply andb_true_iff in H as [Ha Hw].
    cbn [split_from].
    replace (startswith " - " (String a w)) with false.
    + rewrite (IH Hw). reflexivity.
    + symmetry. cbn [startswith].
      destruct w as [|b w].
      * apply andb_false_r.
      * simpl in Hw. apply andb_true_iff in Hw as [Hb _].
        unfold is_not in Hb. apply negb_true_iff in Hb.
        cbn [startswith]. rewrite Hb. apply andb_false_r.
Qed.

(** *** [join] undoes [split] *)

Lemma split_from_cons sep k s :
  exists f fs, split_from sep k s = f :: fs.
Proof.
  revert k. induction s as [|c s IH]; intros k; cbn [split_from].
  - now exists EmptyString, [].
  - destruct k as [|k]; [|apply IH].
    destruct (startswith sep (String c s)).
    + now eexists _, _.
    + destruct (IH O) as (f & fs & ->). now eexists _, _.
Qed.

Lemma join_cons sep f g gs :
  join sep (f :: g :: gs) = f ++ sep ++ join sep (g :: gs).
Proof. reflexivity. Qed.

Lemma join_push sep c f fs :
  join sep (String c f :: fs) = String c (join sep (f :: fs)).
Proof. destruct fs; reflexivity. Qed.

Lemma startswith_drop p s :
  startswith p s = true -> s = p ++ drop (String.length p) s.
Proof.
  revert s. induction p as [|a p IH]; intros s H; [now destruct s|].
  destruct s as [|b s]; [discriminate|].
  cbn [startswith] in H. apply andb_true_iff in H as [Hab Hp].
  apply Ascii.eqb_eq in Hab. subst b.
  cbn [String.length drop append]. f_equal. now apply IH.
Qed.

Lemma join_split_from c0 sep s k :
  join (String c0 sep) (split_from (String c0 sep) k s) = drop k s.
Proof.
  revert k. induction s as [|c s IH]; intros k.
  - now destruct k.
  - cbn [split_from]. destruct k as [|k]; [|apply IH].
    destruct (startswith (String c0 sep) (String c s)) eqn:E.
    + destruct (split_from_cons (String c0 sep)
                  (Nat.pred (String.length (String c0 sep))) s)
        as (f & fs & Hf).
      pose proof (IH (Nat.pred (String.length (String c0 sep)))) as IH'.
      rewrite Hf in *. rewrite join_cons, IH'.
      apply startswith_drop in E. cbn [String.length drop] in E.
      cbn [String.length Nat.pred drop append]. symmetry. exact E.
    + destruct (split_from_cons (String c0 sep) O s) as (f & fs & Hf).
      pose proof (IH O) as IH'. rewrite Hf in *.
      rewrite join_push, IH'. now destruct s.
Qed.

Theorem join_split c0 sep s :
  join (String c0 sep) (split (String c0 sep) s) = s.
Proof. unfold split. rewrite join_split_from. now destruct s. Qed.

(** The first two fields of a split, read back in the text. *)
Lemma split_two_fields c0 sep s t0 t1 rest :
  split (String c0 sep) s = t0 :: t1 :: rest ->
  exists post, s = t0 ++ String c0 sep ++ t1 ++ post.
Proof.
  intros H. pose proof (join_split c0 sep s) as J. rewrite H in J.
  rewrite join_cons in J. destruct rest as [|t2 rest].
  - exists EmptyString. now rewrite app_empty_r.
  - rewrite join_cons in J. eexists. symmetry. exact J.
Qed.

End PyStrFacts.

(** * Facts about [strptime] *)

Module StrptimeFacts.

Import PyStr Strptime Token Chars PyStrFacts.

Example strptime_two_digits : strptime "01.06.2024" = inl (Date 2024 6 1).
Proof. reflexivity. Qed.

Example strptime_one_digit : strptime "31.1.2024" = inl (Date 2024 1 31).
Proof. reflexivity. Qed.

Example strptime_blank_day : strptime " 1.12.2024" = inl (Date 2024 12 1).
Proof. reflexivity. Qed.

Example strptime_leap_day :
  strptime "29.02.2024" = inl (Date 2024 2 29)
  /\ strptime "29.02.2023" = inr ValueError.
Proof. split; reflexivity. Qed.

Example strptime_rejects :
  strptime "01.13.2024" = inr ValueError
  /\ strptime "xx.06.2024" = inr ValueError
  /\ strptime "01.06.24" = inr ValueError
  /\ strptime "01.06.2024 " = inr ValueError
  /\ strptime "01.06.0000" = inr ValueError.
Proof. repeat split. Qed.

Example strftime_pads :
  strftime_date (Date 2024 6 1) = "2024-06-01"
  /\ strftime_datetime (DateTime (Date 2024 12 31) 7 5 0) = "2024-12-31 07:05:00".
Proof. split; reflexivity. Qed.

Example strftime_year_is_not_padded :
  strftime_date (Date 987 6 1) = "987-06-01"
  /\ strftime_date (Date 45 6 1) = "45-06-01"
  /\ strftime_date (Date 1 6 15) = "1-06-15"
  /\ strftime_date (Date 1000 1 1) = "1000-01-01".
Proof. repeat split. Qed.

(** *** Digits *)

Lemma digit_cases n : 0 <= n < 10 -> In n [0; 1; 2; 3; 4; 5; 6; 7; 8; 9].
Proof. cbn [In]. lia. Qed.

Ltac each_case H :=
  cbn in H; repeat (destruct H as [H|H]; [subst|]); try destruct H.

Ltac each_digit H := apply digit_cases in H; each_case H.

Lemma digit_char_between n :
  0 <= n < 10 -> between "0" "9" (digit_char n) = true.
Proof. intros H. each_digit H; reflexivity. Qed.

Lemma digit_char_value n :
  0 <= n < 10 -> digit_value (digit_char n) = Some n.
Proof. intros H. each_digit H; reflexivity. Qed.

Lemma digit_char_not_space n :
  0 <= n < 10 -> isspace (digit_char n) = false.
Proof. intros H. each_digit H; reflexivity. Qed.

Lemma between_digit c :
  between "0" "9" c = true -> exists n, 0 <= n < 10 /\ c = digit_char n.
Proof.
  intros H. exists (Z.of_N (N_of_ascii c) - 48).
  destruct c as [[] [] [] [] [] [] [] []]; try discriminate H;
    (split; [cbv; intuition discriminate | reflexivity]).
Qed.

(** *** The classes of the format *)

Lemma re_class_hit (p : ascii -> bool) c r :
  p c = true -> re_class p (String c r) = [(String c EmptyString, r)].
Proof. intros H. unfold re_class. now rewrite H. Qed.

Lemma in_re_class (p : ascii -> bool) s t r :
  In (t, r) (re_class p s) ->
  exists c, p c = true /\ t = String c EmptyString /\ s = String c r.
Proof.
  unfold re_class. destruct s as [|c s]; [intros []|].
  destruct (p c) eqn:Hp; [|intros []].
  intros [H|[]]. inversion H; subst. now exists c.
Qed.

Lemma in_re_seq (a b : re) s t r :
  In (t, r) (re_seq a b s) ->
  exists t1 r1 t2, In (t1, r1) (a s) /\ In (t2, r) (b r1) /\ t = t1 ++ t2.
Proof.
  unfold re_seq. intros H. apply in_flat_map in H as [[t1 r1] [H1 H2]].
  apply in_map_iff in H2 as [[t2 r2] [E H2]]. inversion E; subst.
  now exists t1, r1, t2.
Qed.

Lemma in_re_alt (a b : re) s x :
  In x (re_alt a b s) -> In x (a s) \/ In x (b s).
Proof. unfold re_alt. apply in_app_or. Qed.

(** *** The year *)

Lemma re_seq_class_hit (p : ascii -> bool) (b : re) c r :
  p c = true ->
  re_seq (re_class p) b (String c r)
  = map (fun '(m, r') => (String c m, r')) (b r).
Proof.
  intros H. unfold re_seq. rewrite (re_class_hit _ _ _ H).
  cbn [flat_map]. rewrite app_nil_r.
  apply map_ext. now intros [m r'].
Qed.

Lemma re_Y_pad4 y r :
  0 <= y <= 9999 -> re_Y (pad4 y ++ r) = [(pad4 y, r)].
Proof.
  intros H. unfold re_Y, re_digit, re_range, pad4.
  cbn [append].
  rewrite !re_seq_class_hit, re_class_hit
    by (apply digit_char_between; Z.div_mod_to_equations; lia).
  reflexivity.
Qed.

Lemma pad4_digits y :
  0 <= y <= 9999 -> all_chars (between "0" "9") (pad4 y) = true.
Proof.
  intros H. unfold pad4. cbn [all_chars].
  rewrite !digit_char_between by (Z.div_mod_to_equations; lia).
  reflexivity.
Qed.

Lemma int_pad4 y : 0 <= y <= 9999 -> int (pad4 y) = inl y.
Proof.
  intros H. unfold int, strip, pad4.
  assert (H1 : 0 <= y / 1000 < 10) by (Z.div_mod_to_equations; lia).
  assert (H2 : 0 <= y / 100 mod 10 < 10) by (Z.div_mod_to_equations; lia).
  assert (H3 : 0 <= y / 10 mod 10 < 10) by (Z.div_mod_to_equations; lia).
  assert (H4 : 0 <= y mod 10 < 10) by (Z.div_mod_to_equations; lia).
  cbn [lstrip rstrip].
  rewrite !digit_char_not_space by assumption.
  cbn [lstrip rstrip].
  rewrite !digit_char_not_space by assumption.
  cbn [int_digits].
  rewrite !digit_char_value by assumption.
  unfold ret. f_equal. Z.div_mod_to_equations. lia.
Qed.

(** *** Day and month *)

Lemma range_cases lo len n :
  Z.of_nat lo <= n < Z.of_nat (lo + len) -> In n (map Z.of_nat (seq lo len)).
Proof.
  intros H. apply in_map_iff. exists (Z.to_nat n).
  split; [lia|]. apply in_seq. lia.
Qed.

Lemma day_cases d : 1 <= d <= 31 -> In d (map Z.of_nat (seq 1 31)).
Proof. intros H. apply range_cases. lia. Qed.

Lemma month_cases m : 1 <= m <= 12 -> In m (map Z.of_nat (seq 1 12)).
Proof. intros H. apply range_cases. lia. Qed.

(** Splits [day_text]/[month_text] at a known number into its concrete
    writings. *)
Ltac each_text H :=
  let E := fresh "E" in
  let L := fresh "L" in
  destruct H as [E|[L [E|E]]] || destruct H as [E|[L E]];
  try (exfalso; lia); vm_compute in E; subst.

Lemma re_d_written {X} (K : string -> string -> list X) d td r :
  1 <= d <= 31 -> day_text d td ->
  flat_map (fun '(dd, r1) =>
              flat_map (fun '(_, r2) => K dd r2) (re_lit "." r1))
           (re_d (td ++ "." ++ r))
  = K td r.
Proof.
  intros Hd Ht. apply day_cases in Hd. each_case Hd; each_text Ht;
    cbn; rewrite ?app_nil_r; reflexivity.
Qed.

Lemma re_m_written {X} (K : string -> string -> list X) m tm r :
  1 <= m <= 12 -> month_text m tm ->
  flat_map (fun '(mm, r1) =>
              flat_map (fun '(_, r2) => K mm r2) (re_lit "." r1))
           (re_m (tm ++ "." ++ r))
  = K tm r.
Proof.
  intros Hm Ht. apply month_cases in Hm. each_case Hm; each_text Ht;
    cbn; rewrite ?app_nil_r; reflexivity.
Qed.

Lemma int_day d td : 1 <= d <= 31 -> day_text d td -> int td = inl d.
Proof.
  intros Hd Ht. apply day_cases in Hd. each_case Hd; each_text Ht;
    reflexivity.
Qed.

Lemma int_month m tm : 1 <= m <= 12 -> month_text m tm -> int tm = inl m.
Proof.
  intros Hm Ht. apply month_cases in Hm. each_case Hm; each_text Ht;
    reflexivity.
Qed.

Lemma days_in_month_le y m : days_in_month y m <= 31.
Proof.
  unfold days_in_month.
  repeat match goal with |- context [if ?b then _ else _] => destruct b end;
    lia.
Qed.

Lemma check_date_ranges y m d :
  check_date y m d = true ->
  1 <= y <= 9999 /\ 1 <= m <= 12 /\ 1 <= d <= 31.
Proof.
  unfold check_date. rewrite !andb_true_iff, !Z.leb_le.
  pose proof (days_in_month_le y m). lia.
Qed.

(** *** [strptime] reads back what is written *)

Lemma format_match_written y m d td tm :
  1 <= y <= 9999 -> 1 <= m <= 12 -> 1 <= d <= 31 ->
  day_text d td -> month_text m tm ->
  format_match (td ++ "." ++ tm ++ "." ++ pad4 y)
  = Some (td, tm, pad4 y, EmptyString).
Proof.
  intros Hy Hm Hd Htd Htm. unfold format_match, format_matches.
  rewrite (re_d_written _ d) by assumption.
  rewrite (re_m_written _ m) by assumption.
  rewrite <- (app_empty_r (pad4 y)) at 1.
  rewrite re_Y_pad4 by lia. reflexivity.
Qed.

Theorem strptime_written tok dt :
  valid_date dt -> written tok dt -> strptime tok = inl dt.
Proof.
  destruct dt as [y m d]. unfold valid_date, written. cbn [year month day].
  intros Hv (td & tm & Htd & Htm & ->).
  pose proof (check_date_ranges _ _ _ Hv) as (Hy & Hm & Hd).
  unfold strptime.
  rewrite (format_match_written y m d) by assumption.
  rewrite (int_day d) by assumption. cbn [bind].
  rewrite (int_month m) by assumption. cbn [bind].
  rewrite int_pad4 by lia. cbn [bind].
  unfold make_date. now rewrite Hv.
Qed.

(** *** [strptime] accepts nothing else *)

Ltac class_cases H c :=
  destruct c as [[] [] [] [] [] [] [] []]; try discriminate H; clear H.

Ltac name_text :=
  match goal with
  | |- exists n, int ?t = inl n /\ _ =>
      let v := eval vm_compute in (int t) in
      match v with inl ?k => exists k end
  end;
  split; [reflexivity|]; split; [lia|];
  first [ left; reflexivity
        | right; split; [lia|]; first [reflexivity | left; reflexivity
                                       | right; reflexivity] ].

Lemma in_re_d s t r :
  In (t, r) (re_d s) ->
  s = t ++ r /\ exists d, int t = inl d /\ 1 <= d <= 31 /\ day_text d t.
Proof.
  unfold re_d, re_range, re_lit, re_digit. intros H.
  repeat (apply in_re_alt in H as [H|H]).
  - apply in_re_seq in H as (t1 & r1 & t2 & H1 & H2 & ->).
    apply in_re_class in H1 as (c1 & P1 & -> & ->).
    apply in_re_class in H2 as (c2 & P2 & -> & ->).
    split; [reflexivity|].
    class_cases P1 c1; class_cases P2 c2; name_text.
  - apply in_re_seq in H as (t1 & r1 & t2 & H1 & H2 & ->).
    apply in_re_class in H1 as (c1 & P1 & -> & ->).
    apply in_re_class in H2 as (c2 & P2 & -> & ->).
    split; [reflexivity|].
    class_cases P1 c1; class_cases P2 c2; name_text.
  - apply in_re_seq in H as (t1 & r1 & t2 & H1 & H2 & ->).
    apply in_re_class in H1 as (c1 & P1 & -> & ->).
    apply in_re_class in H2 as (c2 & P2 & -> & ->).
    split; [reflexivity|].
    class_cases P1 c1; class_cases P2 c2; name_text.
  - apply in_re_class in H as (c1 & P1 & -> & ->).
    split; [reflexivity|].
    class_cases P1 c1; name_text.
  - apply in_re_seq in H as (t1 & r1 & t2 & H1 & H2 & ->).
    apply in_re_class in H1 as (c1 & P1 & -> & ->).
    apply in_re_class in H2 as (c2 & P2 & -> & ->).
    split; [reflexivity|].
    class_cases P1 c1; class_cases P2 c2; name_text.
Qed.

Lemma in_re_m s t r :
  In (t, r) (re_m s) ->
  s = t ++ r /\ exists m, int t = inl m /\ 1 <= m <= 12 /\ month_text m t.
Proof.
  unfold re_m, re_range, re_lit. intros H.
  repeat (apply in_re_alt in H as [H|H]).
  - apply in_re_seq in H as (t1 & r1 & t2 & H1 & H2 & ->).
    apply in_re_class in H1 as (c1 & P1 & -> & ->).
    apply in_re_class in H2 as (c2 & P2 & -> & ->).
    split; [reflexivity|].
    class_cases P1 c1; class_cases P2 c2; name_text.
  - apply in_re_seq in H as (t1 & r1 & t2 & H1 & H2 & ->).
    apply in_re_class in H1 as (c1 & P1 & -> & ->).
    apply in_re_class in H2 as (c2 & P2 & -> & ->).
    split; [reflexivity|].
    class_cases P1 c1; class_cases P2 c2; name_text.
  - apply in_re_class in H as (c1 & P1 & -> & ->).
    split; [reflexivity|].
    class_cases P1 c1; name_text.
Qed.

Lemma pad4_of_digits a b c e :
  0 <= a < 10 -> 0 <= b < 10 -> 0 <= c < 10 -> 0 <= e < 10 ->
  String (digit_char a) (String (digit_char b) (String (digit_char c)
    (String (digit_char e) EmptyString)))
  = pad4 (1000 * a + 100 * b + 10 * c + e).
Proof.
  intros Ha Hb Hc He. unfold pad4.
  repeat f_equal; Z.div_mod_to_equations; lia.
Qed.

Lemma in_re_Y s t r :
  In (t, r) (re_Y s) ->
  s = t ++ r /\ exists y, 0 <= y <= 9999 /\ t = pad4 y.
Proof.
  unfold re_Y, re_digit, re_range. intros H.
  apply in_re_seq in H as (t1 & r1 & u1 & H1 & H & ->).
  apply in_re_seq in H as (t2 & r2 & u2 & H2 & H & ->).
  apply in_re_seq in H as (t3 & r3 & u3 & H3 & H4 & ->).
  apply in_re_class in H1 as (c1 & P1 & -> & ->).
  apply in_re_class in H2 as (c2 & P2 & -> & ->).
  apply in_re_class in H3 as (c3 & P3 & -> & ->).
  apply in_re_class in H4 as (c4 & P4 & -> & ->).
  split; [reflexivity|].
  apply between_digit in P1 as (a & Ha & ->).
  apply between_digit in P2 as (b & Hb & ->).
  apply between_digit in P3 as (c & Hc & ->).
  apply between_digit in P4 as (e & He & ->).
  exists (1000 * a + 100 * b + 10 * c + e). split; [lia|].
  cbn [append]. now apply pad4_of_digits.
Qed.

Lemma in_re_dot s t r : In (t, r) (re_lit "." s) -> s = "." ++ r.
Proof.
  unfold re_lit. intros H. apply in_re_class in H as (c & P & -> & ->).
  apply Ascii.eqb_eq in P. now subst.
Qed.

Lemma hd_error_in {A} (l : list A) x : hd_error l = Some x -> In x l.
Proof. destruct l; [discriminate|]. intros [= ->]. now left. Qed.

Lemma format_match_inv s td tm ty r :
  format_match s = Some (td, tm, ty, r) ->
  s = td ++ "." ++ tm ++ "." ++ ty ++ r
  /\ (exists d, int td = inl d /\ 1 <= d <= 31 /\ day_text d td)
  /\ (exists m, int tm = inl m /\ 1 <= m <= 12 /\ month_text m tm)
  /\ (exists y, 0 <= y <= 9999 /\ ty = pad4 y).
Proof.
  unfold format_match, format_matches. intros H. apply hd_error_in in H.
  apply in_flat_map in H as [[d1 r1] [Hd H]].
  apply in_flat_map in H as [[x2 r2] [Hp H]].
  apply in_flat_map in H as [[m3 r3] [Hm H]].
  apply in_flat_map in H as [[x4 r4] [Hq H]].
  apply in_map_iff in H as [[y5 r5] [E Hy]].
  inversion E; subst; clear E.
  apply in_re_d in Hd as [-> Hd]. apply in_re_dot in Hp as ->.
  apply in_re_m in Hm as [-> Hm]. apply in_re_dot in Hq as ->.
  apply in_re_Y in Hy as [-> Hy].
  repeat split; assumption.
Qed.

Lemma make_date_inv y m d dt :
  make_date y m d = inl dt -> dt = Date y m d /\ check_date y m d = true.
Proof.
  unfold make_date. destruct (check_date y m d); [|discriminate].
  intros [= <-]. now split.
Qed.

Theorem strptime_inv tok dt :
  strptime tok = inl dt -> valid_date dt /\ written tok dt.
Proof.
  unfold strptime. destruct (format_match tok) as [[[[td tm] ty] r]|] eqn:E;
    [|discriminate].
  destruct r; [|discriminate].
  apply format_match_inv in E
    as (-> & (d & Id & Hd & Td) & (m & Im & Hm & Tm) & (y & Hy & ->)).
  rewrite Id. cbn [bind]. rewrite Im. cbn [bind].
  rewrite int_pad4 by assumption. cbn [bind].
  intros H. apply make_date_inv in H as [-> Hv].
  split; [exact Hv|]. exists td, tm. cbn [year month day].
  now rewrite app_empty_r.
Qed.

(** [strptime] succeeds exactly on the valid date tokens. *)
Corollary strptime_succeeds_iff tok :
  succeeds (strptime tok) <-> valid_date_token tok.
Proof.
  split.
  - intros [dt H]. exists dt. now apply strptime_inv.
  - intros [dt [Hv Hw]]. exists dt. now apply strptime_written.
Qed.

(** *** The form YYYY-MM-DD *)

Lemma int_digits_pad4 y : 0 <= y <= 9999 -> int_digits 0 (pad4 y) = Some y.
Proof.
  intros H. unfold pad4. cbn [int_digits].
  rewrite !digit_char_value by (Z.div_mod_to_equations; lia).
  f_equal. Z.div_mod_to_equations. lia.
Qed.

Lemma int_digits_pad2 n : 0 <= n <= 99 -> int_digits 0 (pad2 n) = Some n.
Proof.
  intros H. unfold pad2. cbn [int_digits].
  rewrite !digit_char_value by (Z.div_mod_to_equations; lia).
  f_equal. Z.div_mod_to_equations. lia.
Qed.

Lemma iso_date_recognised s : iso_date s -> is_iso_date s = true.
Proof.
  intros ([y m d] & Hv & ->). unfold valid_date in Hv.
  cbn [year month day] in *.
  pose proof (check_date_ranges _ _ _ Hv) as (Hy & Hm & Hd).
  unfold is_iso_date.
  change (pad4 y ++ "-" ++ pad2 m ++ "-" ++ pad2 d)
    with (String (digit_char (y / 1000))
           (String (digit_char (y / 100 mod 10))
           (String (digit_char (y / 10 mod 10))
           (String (digit_char (y mod 10))
           (String "-"
           (String (digit_char (m / 10)) (String (digit_char (m mod 10))
           (String "-"
           (String (digit_char (d / 10)) (String (digit_char (d mod 10))
              EmptyString)))))))))).
  cbv beta iota. fold (pad4 y). fold (pad2 m). fold (pad2 d).
  rewrite int_digits_pad4, !int_digits_pad2 by lia.
  now rewrite Hv.
Qed.

Lemma year_text_four y : 1000 <= y -> year_text y = pad4 y.
Proof.
  intros H. unfold year_text.
  destruct (y <? 10) eqn:E1; [apply Z.ltb_lt in E1; lia|].
  destruct (y <? 100) eqn:E2; [apply Z.ltb_lt in E2; lia|].
  destruct (y <? 1000) eqn:E3; [apply Z.ltb_lt in E3; lia|].
  reflexivity.
Qed.

(** From the year 1000 on, ["%Y-%m-%d"] is the form YYYY-MM-DD. *)
Lemma strftime_date_four dt :
  1000 <= year dt ->
  strftime_date dt
  = pad4 (year dt) ++ "-" ++ pad2 (month dt) ++ "-" ++ pad2 (day dt).
Proof. intros H. unfold strftime_date. now rewrite year_text_four. Qed.

Lemma digit_char_not_zero n :
  1 <= n < 10 -> Ascii.eqb (digit_char n) "0" = false.
Proof.
  intros H. assert (H' : 0 <= n < 10) by lia.
  each_digit H'; try reflexivity; lia.
Qed.

Lemma leading_digits_tail m d :
  0 <= m <= 99 -> 0 <= d <= 99 ->
  leading_digits ("-" ++ pad2 m ++ "-" ++ pad2 d)
  = (EmptyString, "-" ++ pad2 m ++ "-" ++ pad2 d).
Proof. reflexivity. Qed.

Lemma date_tail_recognised yt y1 yr y m d :
  yt = String y1 yr ->
  leading_digits (yt ++ "-" ++ pad2 m ++ "-" ++ pad2 d)
  = (yt, "-" ++ pad2 m ++ "-" ++ pad2 d) ->
  int_digits 0 yt = Some y ->
  Ascii.eqb y1 "0" = false ->
  check_date y m d = true ->
  is_date_text (yt ++ "-" ++ pad2 m ++ "-" ++ pad2 d) = true.
Proof.
  intros -> Hl Hi H0 Hv.
  pose proof (check_date_ranges _ _ _ Hv) as (Hy & Hm & Hd).
  unfold is_date_text. rewrite Hl.
  change ("-" ++ pad2 m ++ "-" ++ pad2 d)
    with (String "-"
           (String (digit_char (m / 10)) (String (digit_char (m mod 10))
           (String "-"
           (String (digit_char (d / 10)) (String (digit_char (d mod 10))
              EmptyString)))))).
  cbv beta iota. rewrite Hi. fold (pad2 m). fold (pad2 d).
  rewrite !int_digits_pad2 by lia. rewrite H0, Hv. reflexivity.
Qed.

Ltac digits_between :=
  rewrite ?digit_char_between by (Z.div_mod_to_equations; lia).

Example date_text_examples :
  is_date_text "999-06-03" = true /\ is_date_text "2024-06-03" = true
  /\ is_date_text "0999-06-03" = false /\ is_date_text "2024-02-30" = false
  /\ is_date_text "2024-6-3" = false /\ is_date_text "20240-06-03" = false.
Proof. repeat split. Qed.

(** What ["%Y-%m-%d"] prints is recognised, whatever the year. *)
Lemma strftime_date_text dt : valid_date dt -> date_text (strftime_date dt).
Proof.
  destruct dt as [y m d]. unfold valid_date. cbn [year month day]. intros Hv.
  pose proof (check_date_ranges _ _ _ Hv) as (Hy & Hm & Hd).
  unfold strftime_date, year_text. cbn [year month day].
  destruct (y <? 10) eqn:E1; [apply Z.ltb_lt in E1|apply Z.ltb_ge in E1].
  { split; [|discriminate].
    eapply date_tail_recognised; [reflexivity| | | |exact Hv].
    - cbn [append leading_digits]. digits_between. reflexivity.
    - cbn [int_digits]. rewrite digit_char_value by lia. f_equal; lia.
    - apply digit_char_not_zero. lia. }
  destruct (y <? 100) eqn:E2; [apply Z.ltb_lt in E2|apply Z.ltb_ge in E2].
  { split; [|discriminate].
    eapply date_tail_recognised; [reflexivity| | | |exact Hv].
    - unfold pad2 at 1 2. cbn [append leading_digits]. digits_between.
      reflexivity.
    - apply int_digits_pad2. lia.
    - apply digit_char_not_zero. Z.div_mod_to_equations. lia. }
  destruct (y <? 1000) eqn:E3; [apply Z.ltb_lt in E3|apply Z.ltb_ge in E3].
  { split; [|discriminate].
    eapply date_tail_recognised; [reflexivity| | | |exact Hv].
    - unfold pad2 at 1 2. cbn [append leading_digits]. digits_between.
      reflexivity.
    - unfold pad2. cbn [int_digits].
      rewrite !digit_char_value by (Z.div_mod_to_equations; lia).
      f_equal. Z.div_mod_to_equations. lia.
    - apply digit_char_not_zero. Z.div_mod_to_equations. lia. }
  split.
  - eapply date_tail_recognised; [reflexivity| | | |exact Hv].
    + unfold pad4 at 1 2. cbn [append leading_digits]. digits_between.
      reflexivity.
    + apply int_digits_pad4. lia.
    + apply digit_char_not_zero. Z.div_mod_to_equations. lia.
  - intros _. apply iso_date_recognised. exists (Date y m d).
    split; [exact Hv|reflexivity].
Qed.

End StrptimeFacts.

(** * The validity range (lines 140-152) *)

Module ValidityRange.

Import PyStr Strptime Token Chars Props Scraper PyStrFacts StrptimeFacts.

Lemma token_char_not x :
  token_char x = false -> forall a, token_char a = true -> is_not x a = true.
Proof.
  intros Hx a Ha. unfold is_not. apply negb_true_iff.
  destruct (Ascii.eqb x a) eqn:E; [|reflexivity].
  apply Ascii.eqb_eq in E. subst. congruence.
Qed.

Lemma written_chars tok dt :
  valid_date dt -> written tok dt -> all_chars token_char tok = true.
Proof.
  destruct dt as [y m d]. unfold valid_date, written. cbn [year month day].
  intros Hv (td & tm & Htd & Htm & ->).
  apply check_date_ranges in Hv as (Hy & Hm & Hd).
  rewrite !all_chars_app.
  assert (Hp : all_chars token_char (pad4 y) = true).
  { apply all_chars_weaken with (p := between "0" "9").
    - intros c Hc. unfold token_char. now rewrite Hc.
    - apply pad4_digits. lia. }
  rewrite Hp.
  assert (Hday : all_chars token_char td = true).
  { apply day_cases in Hd. StrptimeFacts.each_case Hd;
      StrptimeFacts.each_text Htd; reflexivity. }
  assert (Hmonth : all_chars token_char tm = true).
  { apply month_cases in Hm. StrptimeFacts.each_case Hm;
      StrptimeFacts.each_text Htm; reflexivity. }
  rewrite Hday, Hmonth. reflexivity.
Qed.

Lemma written_without tok dt x :
  token_char x = false ->
  valid_date dt -> written tok dt -> all_chars (is_not x) tok = true.
Proof.
  intros Hx Hv Hw. apply all_chars_weaken with (p := token_char).
  - now apply token_char_not.
  - now apply (written_chars tok dt).
Qed.

(** The shape of a text with the marker whose third field is a date. *)
Lemma split_third_field w0 w1 tok :
  all_chars (is_not " ") w0 = true ->
  all_chars (is_not " ") w1 = true ->
  all_chars (is_not " ") tok = true ->
  nth_error (split " " (w0 ++ " " ++ w1 ++ " " ++ tok)) 2 = Some tok.
Proof.
  intros H0 H1 H2.
  rewrite (split_blank_field w0), (split_blank_field w1) by assumption.
  now rewrite split_blank_last.
Qed.

Lemma third_field_is_read text tok dt :
  contains "von" text = true ->
  nth_error (split " " text) 2 = Some tok ->
  strptime tok = inl dt ->
  parse_validity_range text = inl (strftime_date dt, EmptyString).
Proof.
  intros Hvon Hthird Hdate. unfold parse_validity_range.
  rewrite Hvon. unfold index. rewrite Hthird. cbn [bind ret].
  now rewrite Hdate.
Qed.

(** C1, as amended: a text that contains the marker "von" and whose third
    blank-separated field (index 2 of [split(" ")], as in
    "von Montag 03.06.2024") writes a valid date of the year 1000 or later
    as day.month.year has that date, in the form YYYY-MM-DD, as [valid_from]
    and the empty string as [valid_to]. *)
Theorem single_bound_third_field text tok dt :
  contains "von" text = true ->
  nth_error (split " " text) 2 = Some tok ->
  valid_date dt ->
  written tok dt ->
  1000 <= year dt ->
  parse_validity_range text
  = inl (pad4 (year dt) ++ "-" ++ pad2 (month dt) ++ "-" ++ pad2 (day dt),
         EmptyString).
Proof.
  intros Hvon Hthird Hv Hw Hy.
  rewrite <- (strftime_date_four dt Hy).
  apply (third_field_is_read text tok dt Hvon Hthird).
  now apply strptime_written.
Qed.

Lemma single_bound_third_field_witness :
  parse_validity_range "von Montag 03.06.2024" = inl ("2024-06-03", "").
Proof.
  apply (single_bound_third_field "von Montag 03.06.2024" "03.06.2024"
           (Date 2024 6 3)).
  - reflexivity.
  - reflexivity.
  - reflexivity.
  - exists "03", "06". repeat split; left; reflexivity.
  - simpl. lia.
Defined.

(** Before the year 1000 the year comes without its leading zeros. *)
Example single_bound_year_999 :
  parse_validity_range "von Montag 03.06.0999" = inl ("999-06-03", "").
Proof. reflexivity. Qed.

(** C1, as stated, fails: the marker followed directly by the date leaves
    the text with two fields only, and reading the third raises. *)
Lemma single_bound_marker_then_date :
  contains "von" "von 01.06.2024" = true
  /\ "von 01.06.2024" = "von" ++ " " ++ ddmmyyyy (Date 2024 6 1)
  /\ valid_date (Date 2024 6 1)
  /\ parse_validity_range "von 01.06.2024" = inr IndexError
  /\ parse_validity_range "von 01.06.2024" <> inl ("2024-06-01", "").
Proof. repeat split; try reflexivity. discriminate. Qed.

(** The marker, one word and the date: the text the amended C1 is about. *)
Corollary single_bound_marker_word_date word tok dt :
  all_chars (is_not " ") word = true ->
  valid_date dt ->
  written tok dt ->
  all_chars (is_not " ") tok = true ->
  parse_validity_range ("von" ++ " " ++ word ++ " " ++ tok)
  = inl (strftime_date dt, EmptyString).
Proof.
  intros Hword Hv Hw Htok.
  apply third_field_is_read with (tok := tok).
  - reflexivity.
  - now apply split_third_field.
  - now apply strptime_written.
Qed.

(** C2, as amended: a text "D1.M1.Y1 - D2.M2.Y2" of two valid dates of
    the year 1000 or later has [valid_from] = "Y1-M1-D1" and [valid_to] =
    "Y2-M2-D2", day and month in two digits.  (Such a text never holds the
    marker.) *)
Theorem double_bound dt1 dt2 t1 t2 :
  valid_date dt1 -> written t1 dt1 ->
  valid_date dt2 -> written t2 dt2 ->
  1000 <= year dt1 -> 1000 <= year dt2 ->
  parse_validity_range (t1 ++ " - " ++ t2)
  = inl (pad4 (year dt1) ++ "-" ++ pad2 (month dt1) ++ "-" ++ pad2 (day dt1),
         pad4 (year dt2) ++ "-" ++ pad2 (month dt2) ++ "-" ++ pad2 (day dt2)).
Proof.
  intros Hv1 Hw1 Hv2 Hw2 Hy1 Hy2.
  rewrite <- (strftime_date_four dt1 Hy1), <- (strftime_date_four dt2 Hy2).
  unfold parse_validity_range.
  assert (Hvon : contains "von" (t1 ++ " - " ++ t2) = false).
  { apply contains_without_first. rewrite !all_chars_app.
    rewrite (written_without t1 dt1), (written_without t2 dt2)
      by (assumption || reflexivity).
    reflexivity. }
  rewrite Hvon.
  rewrite split_hyphen_field
    by (apply (written_without t1 dt1); assumption || reflexivity).
  rewrite split_hyphen_last
    by (apply (written_without t2 dt2); assumption || reflexivity).
  cbn [index nth_error bind ret].
  rewrite (strptime_written t1 dt1 Hv1 Hw1). cbn [bind].
  rewrite (strptime_written t2 dt2 Hv2 Hw2). reflexivity.
Qed.

Lemma double_bound_witness :
  parse_validity_range "01.06.2024 - 15.6.2024"
  = inl ("2024-06-01", "2024-06-15").
Proof.
  apply (double_bound (Date 2024 6 1) (Date 2024 6 15)
           "01.06.2024" "15.6.2024").
  - reflexivity.
  - exists "01", "06". repeat split; left; reflexivity.
  - reflexivity.
  - exists "15", "6". split; [left; reflexivity|].
    split; [right; split; [simpl; lia|reflexivity]|reflexivity].
  - simpl. lia.
  - simpl. lia.
Defined.

(** C2, as stated, fails: a year below 1000 is written in four digits in
    the text and comes out without its leading zeros. *)
Lemma double_bound_year_987 :
  "01.06.0987 - 15.06.2024"
  = ddmmyyyy (Date 987 6 1) ++ " - " ++ ddmmyyyy (Date 2024 6 15)
  /\ valid_date (Date 987 6 1) /\ valid_date (Date 2024 6 15)
  /\ contains "von" "01.06.0987 - 15.06.2024" = false
  /\ parse_validity_range "01.06.0987 - 15.06.2024"
     = inl ("987-06-01", "2024-06-15")
  /\ parse_validity_range "01.06.0987 - 15.06.2024"
     <> inl ("0987-06-01", "2024-06-15").
Proof. repeat split; try reflexivity. discriminate. Qed.

Lemma fails_bind_raise {A B} e (k : A -> result B) : fails (bind (raise e) k).
Proof. now exists e. Qed.

Lemma strptime_fails tok : ~ valid_date_token tok -> fails (strptime tok).
Proof.
  intros H. destruct (strptime tok) as [dt|e] eqn:E.
  - exfalso. apply H, strptime_succeeds_iff. now exists dt.
  - now exists e.
Qed.

(** C3: the parse raises on a text that has neither the marker nor two
    valid date tokens with " - " between them, and on a text whose date
    field is missing or is no valid date token. *)
Theorem parse_fails text :
  lacks_dates text \/ malformed_date text ->
  fails (parse_validity_range text).
Proof.
  unfold lacks_dates, malformed_date, parse_validity_range.
  intros [[Hvon Hpair]|Hbad].
  - rewrite Hvon. unfold index.
    destruct (split " - " text) as [|t0 [|t1 rest]] eqn:Es; cbn [nth_error].
    + apply fails_bind_raise.
    + cbn [bind ret]. destruct (strptime t0); apply fails_bind_raise.
    + cbn [bind ret].
      destruct (strptime t0) as [d0|e0] eqn:E0; [|apply fails_bind_raise].
      destruct (strptime t1) as [d1|e1] eqn:E1; [|apply fails_bind_raise].
      exfalso. apply Hpair.
      apply split_two_fields in Es as [post Es].
      exists EmptyString, t0, t1, post. split; [exact Es|].
      split; apply strptime_succeeds_iff; eexists; eassumption.
  - destruct (contains "von" text).
    + unfold index. destruct (nth_error (split " " text) 2) as [tok|];
        [|apply fails_bind_raise].
      cbn [bind ret]. destruct (strptime_fails tok (Hbad tok eq_refl)) as [e ->].
      apply fails_bind_raise.
    + destruct Hbad as (i & Hi & Hbad). unfold index.
      destruct (nth_error (split " - " text) 0) as [t0|] eqn:E0;
        [|apply fails_bind_raise].
      cbn [bind ret].
      destruct (strptime t0) as [d0|e0] eqn:S0; [|apply fails_bind_raise].
      cbn [bind].
      destruct (nth_error (split " - " text) 1) as [t1|] eqn:E1;
        [|apply fails_bind_raise].
      cbn [bind ret].
      destruct (strptime t1) as [d1|e1] eqn:S1; [|apply fails_bind_raise].
      exfalso. destruct i as [|[|i]]; [| |lia].
      * apply (Hbad t0 E0), strptime_succeeds_iff. now exists d0.
      * apply (Hbad t1 E1), strptime_succeeds_iff. now exists d1.
Qed.

Lemma month_13_is_no_date : ~ valid_date_token "01.13.2024".
Proof.
  intros H. apply strptime_succeeds_iff in H as [dt H]. discriminate H.
Qed.

Lemma parse_fails_witness :
  fails (parse_validity_range "01.13.2024 - 15.06.2024").
Proof.
  apply (parse_fails "01.13.2024 - 15.06.2024").
  right. exists O. split; [lia|].
  intros tok [= <-]. exact month_13_is_no_date.
Defined.

(** The examples of C3. *)
Example parse_fails_examples :
  parse_validity_range "" = inr ValueError
  /\ parse_validity_range "01.06.2024" = inr IndexError
  /\ parse_validity_range "01.13.2024 - 15.06.2024" = inr ValueError
  /\ parse_validity_range "01.06.2024 - xx.06.2024" = inr ValueError
  /\ parse_validity_range "von Montag 3x.06.2024" = inr ValueError
  /\ parse_validity_range "30.02.2024 - 15.06.2024" = inr ValueError.
Proof. repeat split. Qed.

End ValidityRange.

(** * One flyer (lines 124-165) *)

Module FlyerFacts.

Import PyStr Strptime Token Chars Props Scraper StrptimeFacts.

Lemma parse_flyer_parsed w flyer name st :
  parsed_flyers (parse_flyer w flyer name st)
  = (parsed_flyers st ++ added_by w flyer name st)%list.
Proof.
  unfold parse_flyer, added_by.
  destruct (extract flyer) as [[[[t src] from] to]|e]; cbn.
  - reflexivity.
  - now rewrite app_nil_r.
Qed.

Lemma parse_flyer_base_url w flyer name st :
  base_url (parse_flyer w flyer name st) = base_url st.
Proof.
  unfold parse_flyer.
  now destruct (extract flyer) as [[[[t src] from] to]|e].
Qed.

Lemma parse_flyer_driver w flyer name st :
  driver (parse_flyer w flyer name st) = driver st.
Proof.
  unfold parse_flyer.
  now destruct (extract flyer) as [[[[t src] from] to]|e].
Qed.

Lemma untimed_added w flyer name st :
  map untimed (added_by w flyer name st) = outcome name flyer.
Proof.
  unfold added_by, outcome.
  now destruct (extract flyer) as [[[[t src] from] to]|e].
Qed.

Lemma parse_flyer_same_output w w' flyer name s s' :
  same_browser w w' -> same_output s s' ->
  same_output (parse_flyer w flyer name s) (parse_flyer w' flyer name s').
Proof.
  intros [_ Hnow] (Hb & Hp & Ht). unfold parse_flyer, same_output.
  destruct (extract flyer) as [[[[t src] from] to]|e]; cbn.
  - rewrite Hb, Hp, Ht, Hnow. auto.
  - auto.
Qed.

(** *** The date of a record *)

Lemma validity_range_iso text from to :
  parse_validity_range text = inl (from, to) -> date_text from.
Proof.
  unfold parse_validity_range, index.
  destruct (contains "von" text).
  - destruct (nth_error (split " " text) 2) as [tok|]; [|discriminate].
    cbn [bind ret]. destruct (strptime tok) as [dt|] eqn:E; [|discriminate].
    cbn [bind ret]. intros [= <- _].
    now apply strftime_date_text, (strptime_inv tok).
  - destruct (nth_error (split " - " text) 0) as [t0|]; [|discriminate].
    cbn [bind ret]. destruct (strptime t0) as [d0|] eqn:E0; [|discriminate].
    cbn [bind ret].
    destruct (nth_error (split " - " text) 1) as [t1|]; [|discriminate].
    cbn [bind ret]. destruct (strptime t1) as [d1|]; [|discriminate].
    cbn [bind ret]. intros [= <- _].
    now apply strftime_date_text, (strptime_inv t0).
Qed.

Lemma extract_iso flyer t src from to :
  extract flyer = inl (t, src, from, to) -> date_text from.
Proof.
  unfold extract.
  destruct (find_element flyer "h2") as [h2|]; [|discriminate]. cbn [bind].
  destruct (text_content h2) as [t'|]; [|discriminate]. cbn [bind].
  destruct (find_element flyer "img") as [img|]; [|discriminate]. cbn [bind].
  destruct (find_element flyer "span") as [span|]; [|discriminate].
  cbn [bind].
  destruct (text_content span) as [range|]; [|discriminate]. cbn [bind].
  destruct (parse_validity_range range) as [[f' t'']|] eqn:E; [|discriminate].
  cbn [bind ret]. intros [= _ _ <- _]. now apply (validity_range_iso range f' t'').
Qed.

Lemma parse_flyer_dated w flyer name st :
  dated st -> dated (parse_flyer w flyer name st).
Proof.
  unfold dated. rewrite parse_flyer_parsed. intros H.
  apply Forall_app. split; [exact H|].
  unfold added_by.
  destruct (extract flyer) as [[[[t src] from] to]|e] eqn:E; constructor.
  - cbn. now apply (extract_iso flyer t src from to).
  - constructor.
Qed.

(** C10: when the [img] of a flyer carries no source -- [src] absent or
    empty, [data-src] absent -- and the title and the validity range are
    read, the record is appended all the same, at the end of
    [parsed_flyers], with [None] as its [thumbnail], and nothing is
    logged. *)
Theorem sourceless_image_is_recorded
        w flyer name st h2 t img span range from to :
  find_element flyer "h2" = inl h2 ->
  text_content h2 = inl t ->
  find_element flyer "img" = inl img ->
  sourceless img ->
  find_element flyer "span" = inl span ->
  text_content span = inl range ->
  parse_validity_range range = inl (from, to) ->
  parsed_flyers (parse_flyer w flyer name st)
  = (parsed_flyers st
     ++ [ {| title := t; thumbnail := None; shop_name := name;
             valid_from := from; valid_to := to;
             parsed_time := strftime_datetime (now w (ticks st)) |} ])%list
  /\ log (parse_flyer w flyer name st) = log st
  /\ driver (parse_flyer w flyer name st) = driver st
  /\ parse_flyer w flyer name st
     = append {| title := t; thumbnail := None; shop_name := name;
                 valid_from := from; valid_to := to;
                 parsed_time := strftime_datetime (now w (ticks st)) |}
              (tick st).
Proof.
  intros Hh2 Ht Himg [Hsrc Hdata] Hspan Hrange Hdates.
  assert (Hex : extract flyer = inl (t, None, from, to)).
  { unfold extract.
    rewrite Hh2. cbn [bind]. rewrite Ht. cbn [bind].
    rewrite Himg. cbn [bind]. rewrite Hspan. cbn [bind].
    rewrite Hrange. cbn [bind]. rewrite Hdates. cbn [bind ret].
    rewrite Hdata. now destruct Hsrc as [-> | ->]. }
  unfold parse_flyer. rewrite Hex. repeat split.
Qed.

Lemma sourceless_image_is_recorded_witness :
  parsed_flyers
    (parse_flyer (Demo.world (Demo.page "Alpha") Demo.flyers_of_alpha)
                 (Demo.figure (Some Demo.bare) "01.06.2024 - 15.06.2024")
                 "Alpha" (init "https://site"))
  = [ {| title := "Angebote"; thumbnail := None; shop_name := "Alpha";
         valid_from := "2024-06-01"; valid_to := "2024-06-15";
         parsed_time := "2024-06-01 12:00:00" |} ]
  /\ log
       (parse_flyer (Demo.world (Demo.page "Alpha") Demo.flyers_of_alpha)
                    (Demo.figure (Some Demo.bare) "01.06.2024 - 15.06.2024")
                    "Alpha" (init "https://site"))
     = [].
Proof.
  pose proof (sourceless_image_is_recorded
                (Demo.world (Demo.page "Alpha") Demo.flyers_of_alpha)
                (Demo.figure (Some Demo.bare) "01.06.2024 - 15.06.2024")
                "Alpha" (init "https://site")
                (Demo.leaf "textContent" " Angebote ") "Angebote" Demo.bare
                (Demo.leaf "textContent" "01.06.2024 - 15.06.2024")
                "01.06.2024 - 15.06.2024" "2024-06-01" "2024-06-15") as H.
  destruct H as (Hrecords & Hlog & _).
  - reflexivity.
  - reflexivity.
  - reflexivity.
  - split; [left; reflexivity|reflexivity].
  - reflexivity.
  - reflexivity.
  - reflexivity.
  - split; [exact Hrecords|exact Hlog].
Defined.

End FlyerFacts.

(** * One shop (lines 98-122) *)

Module ShopFacts.

Import PyStr Strptime Token Chars Props Scraper FlyerFacts.

Lemma parse_flyers_added w name flyers st :
  exists added,
    parsed_flyers (parse_flyers w flyers name st)
    = (parsed_flyers st ++ added)%list
    /\ map untimed added = flat_map (outcome name) flyers.
Proof.
  unfold parse_flyers. revert st.
  induction flyers as [|flyer flyers IH]; intros st; cbn [fold_left flat_map].
  - exists []. now rewrite app_nil_r.
  - destruct (IH (parse_flyer w flyer name st)) as (added & Hp & Hu).
    exists (added_by w flyer name st ++ added)%list. split.
    + now rewrite Hp, parse_flyer_parsed, <- List.app_assoc.
    + now rewrite map_app, untimed_added, Hu.
Qed.

Lemma parse_flyers_base_url w name flyers st :
  base_url (parse_flyers w flyers name st) = base_url st.
Proof.
  unfold parse_flyers. revert st.
  induction flyers as [|flyer flyers IH]; intros st; cbn [fold_left];
    [reflexivity|].
  now rewrite IH, parse_flyer_base_url.
Qed.

Lemma parse_flyers_driver w name flyers st :
  driver (parse_flyers w flyers name st) = driver st.
Proof.
  unfold parse_flyers. revert st.
  induction flyers as [|flyer flyers IH]; intros st; cbn [fold_left];
    [reflexivity|].
  now rewrite IH, parse_flyer_driver.
Qed.

Lemma parse_flyers_dated w name flyers st :
  dated st -> dated (parse_flyers w flyers name st).
Proof.
  unfold parse_flyers. revert st.
  induction flyers as [|flyer flyers IH]; intros st H; cbn [fold_left];
    [exact H|].
  now apply IH, parse_flyer_dated.
Qed.

Lemma parse_flyers_same_output w w' name flyers s s' :
  same_browser w w' -> same_output s s' ->
  same_output (parse_flyers w flyers name s) (parse_flyers w' flyers name s').
Proof.
  intros Hw. unfold parse_flyers. revert s s'.
  induction flyers as [|flyer flyers IH]; intros s s' H; cbn [fold_left];
    [exact H|].
  now apply IH, parse_flyer_same_output.
Qed.

Lemma parse_category_shop_outcome w shop name st :
  shop_outcome w shop name st (parse_category_shop w shop name st).
Proof.
  unfold parse_category_shop. destruct shop as [path|].
  - destruct (driver_wait w (base_url st ++ path)) as [flyers|e] eqn:E.
    + now apply shop_found with (path := path).
    + destruct e;
        try (apply (shop_error w (Some path) name st); [discriminate|exact E]).
      now apply shop_timeout.
  - apply (shop_error w None name st TypeError); [discriminate|reflexivity].
Qed.

Lemma shop_base_url w shop name st :
  base_url (fst (parse_category_shop w shop name st)) = base_url st.
Proof.
  destruct (parse_category_shop_outcome w shop name st); cbn.
  - now rewrite parse_flyers_base_url.
  - reflexivity.
  - now destruct shop.
Qed.

Lemma shop_driver w shop name st :
  exists urls,
    driver (fst (parse_category_shop w shop name st))
    = (driver st ++ map Get urls)%list.
Proof.
  destruct (parse_category_shop_outcome w shop name st); cbn.
  - rewrite parse_flyers_driver. now exists [(base_url st ++ path)%string].
  - now exists [(base_url st ++ path)%string].
  - destruct shop as [path|].
    + now exists [(base_url st ++ path)%string].
    + exists []. cbn. now rewrite app_nil_r.
Qed.

Lemma shop_dated w shop name st :
  dated st -> dated (fst (parse_category_shop w shop name st)).
Proof.
  intros H. destruct (parse_category_shop_outcome w shop name st); cbn.
  - unfold dated. cbn. now apply parse_flyers_dated.
  - exact H.
  - now destruct shop.
Qed.

Lemma shop_same_output w w' shop name s s' :
  same_browser w w' -> same_output s s' ->
  same_output (fst (parse_category_shop w shop name s))
              (fst (parse_category_shop w' shop name s'))
  /\ snd (parse_category_shop w shop name s)
     = snd (parse_category_shop w' shop name s').
Proof.
  intros Hw Hs. pose proof Hs as (Hb & Hp & Ht). destruct Hw as [Hwait Hnow].
  unfold parse_category_shop. destruct shop as [path|].
  - rewrite <- Hb, <- Hwait.
    destruct (driver_wait w (base_url s ++ path)) as [flyers|e].
    + cbn. split; [|reflexivity].
      apply (parse_flyers_same_output w w' name flyers
               (drive (Get (base_url s ++ path)) s)
               (drive (Get (base_url s ++ path)) s')); [now split|].
      exact Hs.
    + destruct e; cbn; auto.
  - cbn. auto.
Qed.

(** C4: when the wait finds the elements of a shop, the shop is left
    without an exception and its records are those of the elements whose
    processing succeeds, one each, in the order of the elements; an element
    whose processing fails adds nothing and leaves the others in place. *)
Theorem failed_flyer_is_skipped w path name st flyers :
  driver_wait w (base_url st ++ path) = inl flyers ->
  exists st' added,
    parse_category_shop w (Some path) name st = (st', inl tt)
    /\ parsed_flyers st' = (parsed_flyers st ++ added)%list
    /\ map untimed added = flat_map (outcome name) flyers
    /\ forall before bad after,
        flyers = (before ++ bad :: after)%list ->
        fails (extract bad) ->
        map untimed added
        = (flat_map (outcome name) before
           ++ flat_map (outcome name) after)%list.
Proof.
  intros Hwait. unfold parse_category_shop. rewrite Hwait.
  destruct (parse_flyers_added w name flyers
              (drive (Get (base_url st ++ path)) st)) as (added & Hp & Hu).
  eexists _, added. split; [reflexivity|]. split; [exact Hp|].
  split; [exact Hu|].
  intros before bad after -> [e Hbad]. rewrite Hu, flat_map_app.
  cbn [flat_map]. unfold outcome at 2. now rewrite Hbad.
Qed.

Lemma failed_flyer_is_skipped_witness :
  exists st' added,
    parse_category_shop (Demo.world (Demo.page "Alpha") Demo.flyers_of_alpha)
                        (Some "/a/") "Alpha" (init "https://site")
    = (st', inl tt)
    /\ parsed_flyers st' = (parsed_flyers (init "https://site") ++ added)%list
    /\ map untimed added
       = flat_map (outcome "Alpha") Demo.flyers_of_alpha
    /\ forall before bad after,
        Demo.flyers_of_alpha = (before ++ bad :: after)%list ->
        fails (extract bad) ->
        map untimed added
        = (flat_map (outcome "Alpha") before
           ++ flat_map (outcome "Alpha") after)%list.
Proof.
  apply (failed_flyer_is_skipped
           (Demo.world (Demo.page "Alpha") Demo.flyers_of_alpha)
           "/a/" "Alpha" (init "https://site") Demo.flyers_of_alpha).
  reflexivity.
Defined.

(** What the shop of the example ends with: the element without an image
    is the one that is missing. *)
Example flyers_of_alpha_outcome :
  flat_map (outcome "Alpha") Demo.flyers_of_alpha
  = [ ("Angebote", Some "https://img/1.jpg", "Alpha",
       "2024-06-01", "2024-06-15");
      ("Angebote", Some "https://img/1.jpg", "Alpha", "2024-06-03", "") ].
Proof. reflexivity. Qed.

(** Successful elements are never lost: each contributes its record. *)
Corollary successful_flyer_is_recorded w path name st flyers flyer t src from to :
  driver_wait w (base_url st ++ path) = inl flyers ->
  In flyer flyers ->
  extract flyer = inl (t, src, from, to) ->
  exists r,
    In r (parsed_flyers (fst (parse_category_shop w (Some path) name st)))
    /\ untimed r = (t, src, name, from, to).
Proof.
  intros Hwait Hin Hex. unfold parse_category_shop. rewrite Hwait.
  destruct (parse_flyers_added w name flyers
              (drive (Get (base_url st ++ path)) st)) as (added & Hp & Hu).
  assert (Hin' : In (t, src, name, from, to) (map untimed added)).
  { rewrite Hu. apply in_flat_map. exists flyer. split; [exact Hin|].
    unfold outcome. rewrite Hex. now left. }
  apply in_map_iff in Hin' as (r & Hr & Hra).
  exists r. split; [|exact Hr]. cbn [fst logging parsed_flyers]. rewrite Hp.
  apply in_or_app. now right.
Qed.

End ShopFacts.

(** * One category (lines 69-96) *)

Module CategoryFacts.

Import PyStr Strptime Token Chars Props Scraper FlyerFacts ShopFacts.

(** *** The loop over the shops *)

Lemma visit_base_url w shops st :
  base_url (fst (visit w shops st)) = base_url st.
Proof.
  revert st. induction shops as [|[shop name] shops IH]; intros st;
    cbn [visit]; [reflexivity|].
  pose proof (shop_base_url w shop name st) as Hb.
  destruct (parse_category_shop w shop name st) as [st' [[]|e]];
    cbn [fst] in *; [now rewrite IH|exact Hb].
Qed.

Lemma visit_driver w shops st :
  exists urls,
    driver (fst (visit w shops st)) = (driver st ++ map Get urls)%list.
Proof.
  revert st. induction shops as [|[shop name] shops IH]; intros st;
    cbn [visit].
  - exists []. cbn. now rewrite app_nil_r.
  - destruct (shop_driver w shop name st) as [urls Hd].
    destruct (parse_category_shop w shop name st) as [st' [[]|e]];
      cbn [fst] in *.
    + destruct (IH st') as [urls' Hd']. exists (urls ++ urls')%list.
      now rewrite Hd', Hd, map_app, List.app_assoc.
    + now exists urls.
Qed.

Lemma visit_dated w shops st : dated st -> dated (fst (visit w shops st)).
Proof.
  revert st. induction shops as [|[shop name] shops IH]; intros st H;
    cbn [visit]; [exact H|].
  pose proof (shop_dated w shop name st H) as Hd.
  destruct (parse_category_shop w shop name st) as [st' [[]|e]];
    cbn [fst] in *; [now apply IH|exact Hd].
Qed.

Lemma visit_same_output w w' shops s s' :
  same_browser w w' -> same_output s s' ->
  same_output (fst (visit w shops s)) (fst (visit w' shops s'))
  /\ snd (visit w shops s) = snd (visit w' shops s').
Proof.
  intros Hw. revert s s'.
  induction shops as [|[shop name] shops IH]; intros s s' Hs; cbn [visit].
  - now split.
  - destruct (shop_same_output w w' shop name s s' Hw Hs) as [Ho Hr].
    destruct (parse_category_shop w shop name s) as [t [[]|e]];
      destruct (parse_category_shop w' shop name s') as [t' [[]|e']];
      cbn [fst snd] in *; try discriminate.
    + now apply IH.
    + injection Hr as ->. now split.
Qed.

Lemma timeout_same_output w path name st :
  driver_wait w (base_url st ++ path) = inr TimeoutException ->
  parse_category_shop w (Some path) name st
  = (logging WARNING ("Flyers not found for shop " ++ name) None
             (drive (Get (base_url st ++ path)) st),
     inl tt).
Proof. intros H. unfold parse_category_shop. now rewrite H. Qed.

Lemma visit_skips_timeout w w' before path name after s s' :
  same_browser w w' -> same_output s s' ->
  driver_wait w (base_url s ++ path) = inr TimeoutException ->
  same_output (fst (visit w (before ++ (Some path, name) :: after) s))
              (fst (visit w' (before ++ after) s'))
  /\ snd (visit w (before ++ (Some path, name) :: after) s)
     = snd (visit w' (before ++ after) s').
Proof.
  intros Hw. revert s s'.
  induction before as [|[shop name'] before IH]; intros s s' Hs Hout.
  - cbn [app visit]. rewrite (timeout_same_output w path name s Hout).
    apply visit_same_output; [exact Hw|].
    destruct Hs as (Hb & Hp & Ht). now repeat split.
  - cbn [app visit].
    destruct (shop_same_output w w' shop name' s s' Hw Hs) as [Ho Hr].
    pose proof (shop_base_url w shop name' s) as Hb.
    destruct (parse_category_shop w shop name' s) as [t [[]|e]];
      destruct (parse_category_shop w' shop name' s') as [t' [[]|e']];
      cbn [fst snd] in *; try discriminate.
    + apply IH; [exact Ho|]. now rewrite Hb.
    + injection Hr as ->. now split.
Qed.

(** *** The whole method *)

Lemma category_finally_parsed st :
  parsed_flyers (category_finally st) = parsed_flyers st.
Proof. reflexivity. Qed.

Lemma category_handler_parsed category e st :
  parsed_flyers (category_handler category e st) = parsed_flyers st.
Proof. now destruct e. Qed.

Lemma category_handler_driver category e st :
  driver (category_handler category e st) = driver st.
Proof. now destruct e. Qed.

(** What the method leaves in [parsed_flyers]: what its [try] block
    collected. *)
Lemma category_parsed w category st :
  parsed_flyers (parse_flyers_category w category st)
  = parsed_flyers (fst (category_body w category st)).
Proof.
  unfold parse_flyers_category.
  destruct (category_body w category st) as [st1 [[]|e]]; cbn [fst].
  - reflexivity.
  - now rewrite category_finally_parsed, category_handler_parsed.
Qed.

Lemma category_body_driver w category st :
  exists urls,
    driver (fst (category_body w category st))
    = (driver st ++ map Get urls)%list.
Proof.
  unfold category_body.
  destruct (requests_get w (base_url (reset st) ++ category)) as [soup|e].
  - destruct (discover soup category) as [shops|e].
    + destruct (visit_driver w shops
                  (logging INFO ("Website " ++ (base_url (reset st) ++ category)
                                 ++ " has been successfully parsed")
                           None (reset st))) as [urls H].
      exists urls. exact H.
    + exists []. cbn. now rewrite app_nil_r.
  - exists []. cbn. now rewrite app_nil_r.
Qed.

Lemma category_driver w category st :
  exists urls,
    driver (parse_flyers_category w category st)
    = (driver st ++ map Get urls ++ [Quit])%list.
Proof.
  destruct (category_body_driver w category st) as [urls H].
  exists urls. unfold parse_flyers_category.
  destruct (category_body w category st) as [st1 [[]|e]]; cbn [fst] in H;
    cbn.
  - now rewrite H, <- List.app_assoc.
  - now rewrite category_handler_driver, H, <- List.app_assoc.
Qed.

Lemma category_dated w category st :
  dated (parse_flyers_category w category st).
Proof.
  unfold dated. rewrite category_parsed. unfold category_body.
  destruct (requests_get w (base_url (reset st) ++ category)) as [soup|e].
  - destruct (discover soup category) as [shops|e].
    + apply visit_dated. constructor.
    + constructor.
  - constructor.
Qed.

End CategoryFacts.

(** * The run *)

Module Pipeline.

Import PyStr Strptime Token Chars Props Scraper.
Import FlyerFacts ShopFacts CategoryFacts.

(** C5: when the wait for the elements of a shop times out, the method
    returns without an exception, adds no record, and adds to the log one
    entry, a warning whose message names the shop; and the records of the
    run are those of a run that does not discover the shop. *)
Theorem timed_out_shop_is_skipped
        w w' category st soup soup' before path name after :
  driver_wait w (base_url st ++ path) = inr TimeoutException ->
  same_browser w w' ->
  requests_get w (base_url st ++ category) = inl soup ->
  discover soup category = inl (before ++ (Some path, name) :: after)%list ->
  requests_get w' (base_url st ++ category) = inl soup' ->
  discover soup' category = inl (before ++ after)%list ->
  (forall s,
      base_url s = base_url st ->
      snd (parse_category_shop w (Some path) name s) = inl tt
      /\ parsed_flyers (fst (parse_category_shop w (Some path) name s))
         = parsed_flyers s
      /\ log (fst (parse_category_shop w (Some path) name s))
         = (log s
            ++ [ {| lvl := WARNING;
                    message := "Flyers not found for shop " ++ name;
                    cause := None |} ])%list
      /\ driver (fst (parse_category_shop w (Some path) name s))
         = (driver s ++ [Get (base_url st ++ path)])%list
      /\ parse_category_shop w (Some path) name s
         = (logging WARNING ("Flyers not found for shop " ++ name) None
                    (drive (Get (base_url st ++ path)) s),
            inl tt))
  /\ parsed_flyers (parse_flyers_category w category st)
     = parsed_flyers (parse_flyers_category w' category st).
Proof.
  intros Hout Hw Hget Hshops Hget' Hshops'. split.
  - intros s Hs. rewrite <- Hs in *.
    rewrite (timeout_same_output w path name s Hout). repeat split.
  - rewrite !category_parsed. unfold category_body.
    cbn [reset base_url]. rewrite Hget, Hget', Hshops, Hshops'.
    apply visit_skips_timeout; [exact Hw| |exact Hout].
    now repeat split.
Qed.

Lemma timed_out_shop_is_skipped_witness :
  (snd (parse_category_shop
          (Demo.world (Demo.page "Alpha") Demo.flyers_of_alpha)
          (Some "/b/") "Beta" (init "https://site")) = inl tt
   /\ parsed_flyers
        (fst (parse_category_shop
                (Demo.world (Demo.page "Alpha") Demo.flyers_of_alpha)
                (Some "/b/") "Beta" (init "https://site"))) = []
   /\ log
        (fst (parse_category_shop
                (Demo.world (Demo.page "Alpha") Demo.flyers_of_alpha)
                (Some "/b/") "Beta" (init "https://site")))
      = [ {| lvl := WARNING; message := "Flyers not found for shop Beta";
             cause := None |} ])
  /\ parsed_flyers
       (parse_flyers_category (Demo.world (Demo.page "Alpha") Demo.flyers_of_alpha)
                              "/hypermarkte/" (init "https://site"))
     = parsed_flyers
         (parse_flyers_category (Demo.world Demo.page_without_beta
                                            Demo.flyers_of_alpha)
                                "/hypermarkte/" (init "https://site")).
Proof.
  pose proof (timed_out_shop_is_skipped
                (Demo.world (Demo.page "Alpha") Demo.flyers_of_alpha)
                (Demo.world Demo.page_without_beta Demo.flyers_of_alpha)
                "/hypermarkte/" (init "https://site")
                (Demo.page "Alpha") Demo.page_without_beta
                [(Some "/a/", "Alpha")] "/b/" "Beta" []) as H.
  destruct H as [Hshop Hrun].
  - reflexivity.
  - split; reflexivity.
  - reflexivity.
  - reflexivity.
  - reflexivity.
  - reflexivity.
  - destruct (Hshop (init "https://site") eq_refl) as (H1 & H2 & H3 & _).
    split; [|exact Hrun]. split; [exact H1|]. split; [exact H2|exact H3].
Defined.

(** C6, as stated, fails: the text of the anchor is not trimmed. *)
Lemma shop_name_is_not_trimmed :
  discover (Demo.page " Alpha ") "/hypermarkte/"
  = inl [(Some "/a/", " Alpha "); (Some "/b/", "Beta")]
  /\ strip " Alpha " = "Alpha"
  /\ ~ In (Some "/a/", strip " Alpha ")
          [(Some "/a/", " Alpha "); (Some "/b/", "Beta")].
Proof.
  repeat split. intros [H|[H|[]]]; discriminate H.
Qed.

Lemma count_gets (p : driver_event -> bool) urls :
  (forall url, p (Get url) = false) ->
  filter p (map Get urls) = [].
Proof.
  intros H. induction urls as [|url urls IH]; cbn; [reflexivity|].
  now rewrite H.
Qed.

(** C7: whatever the fetch, the discovery and the browser do, a run
    starts the browser once, at its beginning, and quits it once, as the
    last call on it. *)
Theorem driver_acquired_and_released_once w url category :
  (exists urls,
      driver (run w url category) = ([Chrome] ++ map Get urls ++ [Quit])%list)
  /\ acquisitions (driver (run w url category)) = 1%nat
  /\ releases (driver (run w url category)) = 1%nat.
Proof.
  unfold run. destruct (category_driver w category (init url)) as [urls H].
  cbn [init driver] in H. rewrite H. split; [now exists urls|].
  unfold acquisitions, releases.
  rewrite !filter_app, !count_gets by reflexivity. now split.
Qed.

(** C8, as amended: every operation keeps the invariant that each record
    holds in [valid_from] a calendar date as ["%Y-%m-%d"] prints it: the
    year without leading zeros, the month and the day in two digits, which
    is the form YYYY-MM-DD from the year 1000 on; a run ends with it. *)
Theorem valid_from_is_a_date w st :
  dated st ->
  (forall flyer name, dated (parse_flyer w flyer name st))
  /\ (forall shop name, dated (fst (parse_category_shop w shop name st)))
  /\ (forall category, dated (parse_flyers_category w category st))
  /\ (forall url category, dated (run w url category)).
Proof.
  intros H. repeat split; intros.
  - now apply parse_flyer_dated.
  - now apply shop_dated.
  - apply category_dated.
  - apply category_dated.
Qed.

Lemma valid_from_is_a_date_witness :
  dated (run (Demo.world (Demo.page "Alpha") Demo.flyers_of_alpha)
             "https://site" "/hypermarkte/").
Proof.
  apply (valid_from_is_a_date
           (Demo.world (Demo.page "Alpha") Demo.flyers_of_alpha)
           (init "https://site")).
  apply Forall_nil.
Defined.

(** C8, as stated, fails: a flyer dated before the year 1000 leaves a
    record whose [valid_from] is not in the form YYYY-MM-DD. *)
Lemma valid_from_year_999 :
  parsed_flyers (run (Demo.world (Demo.page "Alpha") Demo2.old_flyers)
                     "https://site" "/hypermarkte/")
  = [ {| title := "Angebote"; thumbnail := Some "https://img/1.jpg";
         shop_name := "Alpha"; valid_from := "999-06-03"; valid_to := "";
         parsed_time := "2024-06-01 12:00:00" |} ]
  /\ is_iso_date "999-06-03" = false.
Proof. split; reflexivity. Qed.

(** C9: with the shops [("/a/", "Alpha"); ("/b/", "Beta")], one flyer
    "01.06.2024 - 15.06.2024" at "/a/" and a timeout at "/b/", the run
    ends with one record: shop "Alpha", from 2024-06-01 to 2024-06-15,
    stamped with the clock reading of the run. *)
Theorem end_to_end w url category soup flyer h2 t img span :
  requests_get w (url ++ category) = inl soup ->
  discover soup category = inl [(Some "/a/", "Alpha"); (Some "/b/", "Beta")] ->
  driver_wait w (url ++ "/a/") = inl [flyer] ->
  find_element flyer "h2" = inl h2 ->
  text_content h2 = inl t ->
  find_element flyer "img" = inl img ->
  find_element flyer "span" = inl span ->
  get_attribute span "textContent" = Some "01.06.2024 - 15.06.2024" ->
  driver_wait w (url ++ "/b/") = inr TimeoutException ->
  parsed_flyers (run w url category)
  = [ {| title := t;
         thumbnail := or_ (get_attribute img "src")
                          (get_attribute img "data-src");
         shop_name := "Alpha";
         valid_from := "2024-06-01";
         valid_to := "2024-06-15";
         parsed_time := strftime_datetime (now w O) |} ].
Proof.
  intros Hget Hshops Ha Hh2 Ht Himg Hspan Hrange Hb.
  assert (Hex : extract flyer
                = inl (t, or_ (get_attribute img "src")
                              (get_attribute img "data-src"),
                       "2024-06-01", "2024-06-15")).
  { unfold extract. rewrite Hh2. cbn [bind]. rewrite Ht. cbn [bind].
    rewrite Himg. cbn [bind]. rewrite Hspan. cbn [bind].
    unfold text_content. rewrite Hrange. reflexivity. }
  unfold run. rewrite category_parsed. unfold category_body.
  cbn [init reset base_url]. rewrite Hget, Hshops.
  cbn [visit]. unfold parse_category_shop at 1.
  cbn [base_url logging reset init]. rewrite Ha.
  unfold parse_flyers. cbn [fold_left]. unfold parse_flyer. rewrite Hex.
  cbn [visit]. unfold parse_category_shop.
  cbn [base_url logging append tick drive reset init]. rewrite Hb.
  reflexivity.
Qed.

Lemma end_to_end_witness :
  parsed_flyers
    (run (Demo.world (Demo.page "Alpha")
                     [Demo.figure (Some Demo.picture) "01.06.2024 - 15.06.2024"])
         "https://site" "/hypermarkte/")
  = [ {| title := "Angebote";
         thumbnail := Some "https://img/1.jpg";
         shop_name := "Alpha";
         valid_from := "2024-06-01";
         valid_to := "2024-06-15";
         parsed_time := "2024-06-01 12:00:00" |} ].
Proof.
  apply (end_to_end
           (Demo.world (Demo.page "Alpha")
              [Demo.figure (Some Demo.picture) "01.06.2024 - 15.06.2024"])
           "https://site" "/hypermarkte/" (Demo.page "Alpha")
           (Demo.figure (Some Demo.picture) "01.06.2024 - 15.06.2024")
           (Demo.leaf "textContent" " Angebote ") "Angebote" Demo.picture
           (Demo.leaf "textContent" "01.06.2024 - 15.06.2024"));
    reflexivity.
Defined.

End Pipeline.

(** * More about the string methods *)

Module StripFacts.

Import PyStr Chars Props2.

Lemma lstrip_blank l s : blank l -> lstrip (l ++ s) = lstrip s.
Proof.
  unfold blank. induction l as [|c l IH]; cbn [all_chars append lstrip];
    [reflexivity|].
  intros H. apply andb_true_iff in H as [Hc Hl]. rewrite Hc. now apply IH.
Qed.

Lemma rstrip_blank_only r : blank r -> rstrip r = EmptyString.
Proof.
  unfold blank. induction r as [|c r IH]; cbn [all_chars rstrip];
    [reflexivity|].
  intros H. apply andb_true_iff in H as [Hc Hr]. now rewrite (IH Hr), Hc.
Qed.

Lemma rstrip_blank s r : blank r -> rstrip (s ++ r) = rstrip s.
Proof.
  intros Hr. induction s as [|c s IH]; cbn [append rstrip].
  - now apply rstrip_blank_only.
  - now rewrite IH.
Qed.

Lemma lstrip_app s r :
  lstrip (s ++ r)
  = match lstrip s with
    | EmptyString => lstrip r
    | t => t ++ r
    end.
Proof.
  induction s as [|c s IH]; cbn [append lstrip].
  - now destruct (lstrip r).
  - destruct (isspace c); [exact IH|reflexivity].
Qed.






Theorem strip_padding l s r : blank l -> blank r -> strip (l ++ s ++ r) = strip s.
Proof.
  intros Hl Hr. unfold strip. rewrite (lstrip_blank l _ Hl), lstrip_app.
  destruct (lstrip s) as [|c t] eqn:E.
  - rewrite <- (PyStrFacts.app_empty_r r), (lstrip_blank r _ Hr).
    reflexivity.
  - now apply rstrip_blank.
Qed.

End StripFacts.

(** * More about one flyer *)

Module RecordFacts.

Import PyStr Strptime Token Chars Props Props2 Scraper.
Import StrptimeFacts FlyerFacts ShopFacts CategoryFacts StripFacts.

Lemma validity_range_shape text from to :
  parse_validity_range text = inl (from, to) ->
  date_text from
  /\ if contains "von" text then to = EmptyString else date_text to.
Proof.
  unfold parse_validity_range, index.
  destruct (contains "von" text).
  - destruct (nth_error (split " " text) 2) as [tok|]; [|discriminate].
    cbn [bind ret]. destruct (strptime tok) as [dt|] eqn:E; [|discriminate].
    cbn [bind ret]. intros [= <- <-]. split; [|reflexivity].
    now apply strftime_date_text, (strptime_inv tok).
  - destruct (nth_error (split " - " text) 0) as [t0|]; [|discriminate].
    cbn [bind ret]. destruct (strptime t0) as [d0|] eqn:E0; [|discriminate].
    cbn [bind ret].
    destruct (nth_error (split " - " text) 1) as [t1|]; [|discriminate].
    cbn [bind ret]. destruct (strptime t1) as [d1|] eqn:E1; [|discriminate].
    cbn [bind ret]. intros [= <- <-].
    split; apply strftime_date_text.
    + now apply (strptime_inv t0).
    + now apply (strptime_inv t1).
Qed.

(** X1: when the parse of a validity text succeeds, [valid_from] is a
    calendar date as ["%Y-%m-%d"] prints it -- the year without leading
    zeros, then the month and the day in two digits, which is the form
    YYYY-MM-DD when it has ten characters -- and [valid_to] is the empty
    string if the text contains "von" anywhere, and such a date
    otherwise. *)
Theorem validity_range_result text from to :
  parse_validity_range text = inl (from, to) ->
  (is_date_text from = true
   /\ (String.length from = 10%nat -> is_iso_date from = true))
  /\ if contains "von" text then to = EmptyString
     else is_date_text to = true
          /\ (String.length to = 10%nat -> is_iso_date to = true).
Proof. intros H. apply validity_range_shape. exact H. Qed.

Lemma validity_range_result_witness :
  (is_date_text "987-06-03" = true
   /\ (String.length "987-06-03" = 10%nat -> is_iso_date "987-06-03" = true))
  /\ if contains "von" "davon Montag 03.06.0987 - 15.06.2024"
     then "" = EmptyString
     else is_date_text "" = true
          /\ (String.length "" = 10%nat -> is_iso_date "" = true).
Proof.
  apply (validity_range_result "davon Montag 03.06.0987 - 15.06.2024").
  reflexivity.
Defined.

(** What [extract] returns, field by field. *)
Lemma extract_inv flyer t src from to :
  extract flyer = inl (t, src, from, to) ->
  exists h2 img span range,
    find_element flyer "h2" = inl h2 /\ text_content h2 = inl t
    /\ find_element flyer "img" = inl img
    /\ src = or_ (get_attribute img "src") (get_attribute img "data-src")
    /\ find_element flyer "span" = inl span /\ text_content span = inl range
    /\ parse_validity_range range = inl (from, to).
Proof.
  unfold extract.
  destruct (find_element flyer "h2") as [h2|]; [|discriminate]. cbn [bind].
  destruct (text_content h2) as [t'|] eqn:Et; [|discriminate]. cbn [bind].
  destruct (find_element flyer "img") as [img|]; [|discriminate]. cbn [bind].
  destruct (find_element flyer "span") as [span|]; [|discriminate].
  cbn [bind].
  destruct (text_content span) as [range|] eqn:Er; [|discriminate].
  cbn [bind].
  destruct (parse_validity_range range) as [[f' t'']|] eqn:E; [|discriminate].
  cbn [bind ret]. intros [= <- <- <- <-].
  exists h2, img, span, range. repeat split; assumption || reflexivity.
Qed.


(** *** Properties of the records that every operation keeps *)

Section Kept.

Variable P : FlyerRecord -> Prop.
Variable Q : string -> Prop.

Hypothesis extracted :
  forall flyer t src from to name stamp,
    Q name ->
    extract flyer = inl (t, src, from, to) ->
    P {| title := t; thumbnail := src; shop_name := name;
         valid_from := from; valid_to := to; parsed_time := stamp |}.

Lemma kept_by_parse_flyer w flyer name st :
  Q name ->
  Forall P (parsed_flyers st) ->
  Forall P (parsed_flyers (parse_flyer w flyer name st)).
Proof.
  rewrite parse_flyer_parsed. intros Hq H. apply Forall_app. split; [exact H|].
  unfold added_by.
  destruct (extract flyer) as [[[[t src] from] to]|e] eqn:E; constructor.
  - now apply extracted with (flyer := flyer).
  - constructor.
Qed.

Lemma kept_by_parse_flyers w flyers name st :
  Q name ->
  Forall P (parsed_flyers st) ->
  Forall P (parsed_flyers (parse_flyers w flyers name st)).
Proof.
  intros Hq. unfold parse_flyers. revert st.
  induction flyers as [|flyer flyers IH]; intros st H; cbn [fold_left];
    [exact H|].
  now apply IH, kept_by_parse_flyer.
Qed.

Lemma kept_by_shop w shop name st :
  Q name ->
  Forall P (parsed_flyers st) ->
  Forall P (parsed_flyers (fst (parse_category_shop w shop name st))).
Proof.
  intros Hq H. destruct (parse_category_shop_outcome w shop name st); cbn.
  - now apply kept_by_parse_flyers.
  - exact H.
  - now destruct shop.
Qed.

Lemma kept_by_visit w shops st :
  Forall Q (map snd shops) ->
  Forall P (parsed_flyers st) ->
  Forall P (parsed_flyers (fst (visit w shops st))).
Proof.
  revert st. induction shops as [|[shop name] shops IH]; intros st Hq H;
    cbn [visit]; [exact H|].
  cbn [map snd] in Hq. apply Forall_cons_iff in Hq as [Hname Hq].
  pose proof (kept_by_shop w shop name st Hname H) as Hs.
  destruct (parse_category_shop w shop name st) as [st' [[]|e]];
    cbn [fst] in *; [now apply IH|exact Hs].
Qed.

Lemma kept_by_category w category st :
  (forall soup shops,
      requests_get w (base_url st ++ category) = inl soup ->
      discover soup category = inl shops ->
      Forall Q (map snd shops)) ->
  Forall P (parsed_flyers (parse_flyers_category w category st)).
Proof.
  intros Hq. rewrite category_parsed. unfold category_body.
  cbn [reset base_url].
  destruct (requests_get w (base_url st ++ category)) as [soup|e].
  - destruct (discover soup category) as [shops|e] eqn:E.
    + apply kept_by_visit; [now apply (Hq soup)|constructor].
    + constructor.
  - constructor.
Qed.

End Kept.

Lemma any_name (names : list string) : Forall (fun _ => True) names.
Proof. induction names; constructor; trivial. Qed.

(** X2: every operation keeps the invariant that [valid_to] of each record
    is the empty string or a calendar date as ["%Y-%m-%d"] prints it (the
    year without leading zeros; the form YYYY-MM-DD when it has ten
    characters), and every run ends with it. *)
Theorem valid_to_is_empty_or_a_date w st :
  bounded st ->
  (forall flyer name, bounded (parse_flyer w flyer name st))
  /\ (forall shop name, bounded (fst (parse_category_shop w shop name st)))
  /\ (forall category, bounded (parse_flyers_category w category st))
  /\ (forall url category, bounded (run w url category)).
Proof.
  assert (Hx : forall flyer t src from to name stamp,
             True -> extract flyer = inl (t, src, from, to) ->
             (fun r => valid_to r = EmptyString \/ date_text (valid_to r))
               {| title := t; thumbnail := src; shop_name := name;
                  valid_from := from; valid_to := to; parsed_time := stamp |}).
  { intros flyer t src from to name stamp _ H. cbn.
    apply extract_inv in H as (_ & _ & _ & range & _ & _ & _ & _ & _ & _ & H).
    apply validity_range_shape in H as [_ H].
    destruct (contains "von" range); [now left|now right]. }
  intros H. unfold bounded. repeat split; intros.
  - now apply (kept_by_parse_flyer _ (fun _ => True)).
  - now apply (kept_by_shop _ (fun _ => True)).
  - apply (kept_by_category _ (fun _ => True)); [exact Hx|].
    intros. apply any_name.
  - apply (kept_by_category _ (fun _ => True)); [exact Hx|].
    intros. apply any_name.
Qed.

Lemma valid_to_is_empty_or_a_date_witness :
  bounded (run (Demo.world (Demo.page "Alpha") Demo.flyers_of_alpha)
               "https://site" "/hypermarkte/").
Proof.
  apply (valid_to_is_empty_or_a_date
           (Demo.world (Demo.page "Alpha") Demo.flyers_of_alpha)
           (init "https://site")).
  apply Forall_nil.
Defined.



(** X4: blanks around the text of the title or of the validity range make
    no difference: two elements whose [textContent] differ by surrounding
    white space only are read as the same text. *)
Theorem padding_is_ignored e e' l s r :
  blank l -> blank r ->
  get_attribute e "textContent" = Some s ->
  get_attribute e' "textContent" = Some (l ++ s ++ r) ->
  text_content e' = text_content e.
Proof.
  intros Hl Hr He He'. unfold text_content. rewrite He, He'.
  unfold ret. f_equal. now apply strip_padding.
Qed.

Lemma padding_is_ignored_witness :
  text_content (Demo.leaf "textContent" "  01.06.2024 - 15.06.2024 ")
  = text_content (Demo.leaf "textContent" "01.06.2024 - 15.06.2024").
Proof.
  apply (padding_is_ignored
           (Demo.leaf "textContent" "01.06.2024 - 15.06.2024")
           (Demo.leaf "textContent" "  01.06.2024 - 15.06.2024 ")
           "  " "01.06.2024 - 15.06.2024" " "); reflexivity.
Defined.

(** X5: every record of a run carries, as [shop_name], the text of one of
    the links that the discovery returned. *)
Theorem shop_names_are_discovered w url category soup shops r :
  requests_get w (url ++ category) = inl soup ->
  discover soup category = inl shops ->
  In r (parsed_flyers (run w url category)) ->
  In (shop_name r) (map snd shops).
Proof.
  intros Hget Hshops. unfold run.
  assert (H : Forall (fun r => In (shop_name r) (map snd shops))
                     (parsed_flyers (parse_flyers_category w category (init url)))).
  { apply (kept_by_category _ (fun name => In name (map snd shops))).
    - intros flyer t src from to name stamp Hname _. exact Hname.
    - cbn [init base_url]. intros soup' shops' Hget' Hshops'.
      rewrite Hget in Hget'. injection Hget' as <-.
      rewrite Hshops in Hshops'. injection Hshops' as <-.
      apply Forall_forall. trivial. }
  rewrite Forall_forall in H. apply H.
Qed.

Lemma shop_names_are_discovered_witness :
  In "Alpha" (map snd [(Some "/a/", "Alpha"); (Some "/b/", "Beta")]).
Proof.
  apply (shop_names_are_discovered
           (Demo.world (Demo.page "Alpha") Demo.flyers_of_alpha)
           "https://site" "/hypermarkte/" (Demo.page "Alpha")
           [(Some "/a/", "Alpha"); (Some "/b/", "Beta")]
           {| title := "Angebote"; thumbnail := Some "https://img/1.jpg";
              shop_name := "Alpha"; valid_from := "2024-06-03";
              valid_to := ""; parsed_time := "2024-06-01 12:00:00" |}).
  - reflexivity.
  - reflexivity.
  - right. left. reflexivity.
Defined.

(** *** Every element is recorded or logged *)

Lemma errors_app l l' : errors (l ++ l') = (errors l + errors l')%nat.
Proof. unfold errors. now rewrite filter_app, length_app. Qed.

Lemma parse_flyer_accounts w flyer name st :
  (List.length (parsed_flyers (parse_flyer w flyer name st))
   + errors (log (parse_flyer w flyer name st)))%nat
  = S (List.length (parsed_flyers st) + errors (log st)).
Proof.
  unfold parse_flyer.
  destruct (extract flyer) as [[[[t src] from] to]|e];
    cbn [append tick logging parsed_flyers log].
  - rewrite length_app. cbn [length]. lia.
  - rewrite errors_app. cbn. lia.
Qed.

Lemma parse_flyers_accounts w flyers name st :
  (List.length (parsed_flyers (parse_flyers w flyers name st))
   + errors (log (parse_flyers w flyers name st)))%nat
  = (List.length (parsed_flyers st) + errors (log st)
     + List.length flyers)%nat.
Proof.
  unfold parse_flyers. revert st.
  induction flyers as [|flyer flyers IH]; intros st; cbn [fold_left length].
  - lia.
  - rewrite IH, parse_flyer_accounts. lia.
Qed.

(** X6: when the wait finds the elements of a shop, each of them ends
    either as a record or as one [logging.error] call: the records and the
    error entries grow, together, by the number of elements. *)
Theorem every_flyer_is_accounted_for w path name st flyers :
  driver_wait w (base_url st ++ path) = inl flyers ->
  (List.length (parsed_flyers (fst (parse_category_shop w (Some path) name st)))
   + errors (log (fst (parse_category_shop w (Some path) name st))))%nat
  = (List.length (parsed_flyers st) + errors (log st)
     + List.length flyers)%nat.
Proof.
  intros Hwait. unfold parse_category_shop. rewrite Hwait.
  cbn [fst logging parsed_flyers log]. rewrite errors_app.
  rewrite Nat.add_assoc, parse_flyers_accounts.
  change (errors [_]) with O. cbn [drive parsed_flyers log]. lia.
Qed.

Lemma every_flyer_is_accounted_for_witness :
  (List.length
     (parsed_flyers
        (fst (parse_category_shop
                (Demo.world (Demo.page "Alpha") Demo.flyers_of_alpha)
                (Some "/a/") "Alpha" (init "https://site"))))
   + errors
       (log (fst (parse_category_shop
                    (Demo.world (Demo.page "Alpha") Demo.flyers_of_alpha)
                    (Some "/a/") "Alpha" (init "https://site")))))%nat
  = (0 + 0 + 3)%nat.
Proof.
  apply (every_flyer_is_accounted_for
           (Demo.world (Demo.page "Alpha") Demo.flyers_of_alpha)
           "/a/" "Alpha" (init "https://site") Demo.flyers_of_alpha).
  reflexivity.
Defined.

End RecordFacts.

(** * More about the run *)

Module RunFacts.

Import PyStr Strptime Token Chars Props Props2 Scraper.
Import FlyerFacts ShopFacts CategoryFacts.

(** *** The clock *)

Lemma stamped_app w k l r :
  stamped w k l ->
  parsed_time r = strftime_datetime (now w (k + List.length l)) ->
  stamped w k (l ++ [r]).
Proof.
  revert k. induction l as [|x l IH]; intros k; cbn [stamped app length].
  - intros _ H. rewrite Nat.add_0_r in H. now split.
  - intros [Hx Hl] H. split; [exact Hx|]. apply IH; [exact Hl|].
    now rewrite Nat.add_succ_comm.
Qed.

Lemma stamped_nth w k l i r :
  stamped w k l -> nth_error l i = Some r ->
  parsed_time r = strftime_datetime (now w (k + i)).
Proof.
  revert k i. induction l as [|x l IH]; intros k [|i]; cbn [stamped nth_error];
    try discriminate.
  - intros [Hx _] [= <-]. now rewrite Nat.add_0_r.
  - intros [_ Hl] H. rewrite <- Nat.add_succ_comm. now apply IH.
Qed.

Lemma clocked_parse_flyer w k flyer name st :
  clocked w k st -> clocked w k (parse_flyer w flyer name st).
Proof.
  unfold clocked, parse_flyer. intros [Hs Ht].
  destruct (extract flyer) as [[[[t src] from] to]|e];
    cbn [append tick logging parsed_flyers ticks]; [|now split].
  split.
  - apply stamped_app; [exact Hs|]. cbn [parsed_time]. now rewrite Ht.
  - rewrite length_app, Ht. cbn [length]. lia.
Qed.

Lemma clocked_parse_flyers w k flyers name st :
  clocked w k st -> clocked w k (parse_flyers w flyers name st).
Proof.
  unfold parse_flyers. revert st.
  induction flyers as [|flyer flyers IH]; intros st H; cbn [fold_left];
    [exact H|].
  now apply IH, clocked_parse_flyer.
Qed.

Lemma clocked_shop w k shop name st :
  clocked w k st -> clocked w k (fst (parse_category_shop w shop name st)).
Proof.
  intros H. destruct (parse_category_shop_outcome w shop name st); cbn [fst].
  - apply (clocked_parse_flyers w k flyers name
             (drive (Get (base_url st ++ path)) st)). exact H.
  - exact H.
  - now destruct shop.
Qed.

Lemma clocked_visit w k shops st :
  clocked w k st -> clocked w k (fst (visit w shops st)).
Proof.
  revert st. induction shops as [|[shop name] shops IH]; intros st H;
    cbn [visit]; [exact H|].
  pose proof (clocked_shop w k shop name st H) as Hs.
  destruct (parse_category_shop w shop name st) as [st' [[]|e]];
    cbn [fst] in *; [now apply IH|exact Hs].
Qed.

Lemma clocked_category w category st :
  clocked w (ticks st) (parse_flyers_category w category st).
Proof.
  assert (H : clocked w (ticks st) (fst (category_body w category st))).
  { unfold category_body.
    destruct (requests_get w (base_url (reset st) ++ category)) as [soup|e].
    - destruct (discover soup category) as [shops|e].
      + apply clocked_visit. split; [exact I|]. cbn. lia.
      + split; [exact I|]. cbn. lia.
    - split; [exact I|]. cbn. lia. }
  unfold parse_flyers_category.
  destruct (category_body w category st) as [st1 [[]|e]]; cbn [fst] in H.
  - exact H.
  - now destruct e.
Qed.

(** X7: the records that [parse_flyers_category] leaves are stamped, in
    their order, with the clock readings that follow those made before the
    call, one reading per record: a flyer that fails reads no clock, and no
    record of an earlier call is left. *)
Theorem records_are_stamped_in_order w category st i r :
  nth_error (parsed_flyers (parse_flyers_category w category st)) i = Some r ->
  parsed_time r = strftime_datetime (now w (ticks st + i))
  /\ ticks (parse_flyers_category w category st)
     = (ticks st
        + List.length (parsed_flyers (parse_flyers_category w category st)))%nat.
Proof.
  intros H. destruct (clocked_category w category st) as [Hs Ht].
  split; [now apply (stamped_nth w (ticks st) _ i r Hs)|exact Ht].
Qed.

Lemma records_are_stamped_in_order_witness :
  "2024-06-01 12:00:00" = strftime_datetime (Demo.noon)
  /\ 2%nat = (0 + 2)%nat.
Proof.
  apply (records_are_stamped_in_order
           (Demo.world (Demo.page "Alpha") Demo.flyers_of_alpha)
           "/hypermarkte/" (init "https://site") 1
           {| title := "Angebote"; thumbnail := Some "https://img/1.jpg";
              shop_name := "Alpha"; valid_from := "2024-06-03";
              valid_to := ""; parsed_time := "2024-06-01 12:00:00" |}).
  reflexivity.
Defined.

(** *** The same browser gives the same run *)

Lemma parse_flyer_same w w' flyer name st :
  same_browser w w' -> parse_flyer w flyer name st = parse_flyer w' flyer name st.
Proof. intros [_ Hnow]. unfold parse_flyer. now rewrite Hnow. Qed.

Lemma parse_flyers_same w w' flyers name st :
  same_browser w w' ->
  parse_flyers w flyers name st = parse_flyers w' flyers name st.
Proof.
  intros Hw. unfold parse_flyers. revert st.
  induction flyers as [|flyer flyers IH]; intros st; cbn [fold_left];
    [reflexivity|].
  now rewrite IH, (parse_flyer_same w w').
Qed.

Lemma shop_same w w' shop name st :
  same_browser w w' ->
  parse_category_shop w shop name st = parse_category_shop w' shop name st.
Proof.
  intros Hw. pose proof Hw as [Hwait _]. unfold parse_category_shop.
  destruct shop as [path|]; [|reflexivity].
  rewrite <- Hwait.
  destruct (driver_wait w (base_url st ++ path)); [|reflexivity].
  now rewrite (parse_flyers_same w w').
Qed.

Lemma visit_same w w' shops st :
  same_browser w w' -> visit w shops st = visit w' shops st.
Proof.
  intros Hw. revert st.
  induction shops as [|[shop name] shops IH]; intros st; cbn [visit];
    [reflexivity|].
  rewrite <- (shop_same w w' shop name st Hw).
  destruct (parse_category_shop w shop name st) as [st' [[]|e]];
    [apply IH|reflexivity].
Qed.

(** *** A shop that raises *)

Lemma breaking_shop w shop name st e :
  breaks w (base_url st) shop e ->
  parse_category_shop w shop name st
  = (logging ERROR "Error occured: " (Some e)
             match shop with
             | Some path => drive (Get (base_url st ++ path)) st
             | None => st
             end,
     inr UnboundLocalError).
Proof.
  intros [Hne He]. unfold parse_category_shop. destruct shop as [path|].
  - rewrite He. now destruct e.
  - now subst e.
Qed.

Lemma visit_breaks w before shop name after st e :
  breaks w (base_url st) shop e ->
  visit w (before ++ (shop, name) :: after) st
  = visit w (before ++ [(shop, name)]) st.
Proof.
  revert st. induction before as [|[shop' name'] before IH]; intros st Hb;
    cbn [app visit].
  - now rewrite (breaking_shop w shop name st e Hb).
  - pose proof (shop_base_url w shop' name' st) as Hu.
    destruct (parse_category_shop w shop' name' st) as [st' [[]|e']];
      cbn [fst] in Hu; [|reflexivity].
    apply IH. now rewrite Hu.
Qed.

(** X8: when a link of the dropdown has no [href], or the browser raises
    anything but a timeout at a shop, [parse_category_shop] adds to the log
    one entry, the error with its cause, keeps the records and then raises
    [UnboundLocalError]; this ends the
    loop of [parse_flyers_category], so that the shops after that one are
    never visited: the call ends in the very state it ends in when the
    dropdown stops at that shop. *)
Theorem shops_after_an_error_are_not_visited
        w w' category st soup soup' before shop name after e :
  breaks w (base_url st) shop e ->
  same_browser w w' ->
  requests_get w (base_url st ++ category) = inl soup ->
  discover soup category = inl (before ++ (shop, name) :: after)%list ->
  requests_get w' (base_url st ++ category) = inl soup' ->
  discover soup' category = inl (before ++ [(shop, name)])%list ->
  (forall s,
      base_url s = base_url st ->
      snd (parse_category_shop w shop name s) = inr UnboundLocalError
      /\ parsed_flyers (fst (parse_category_shop w shop name s))
         = parsed_flyers s
      /\ log (fst (parse_category_shop w shop name s))
         = (log s
            ++ [ {| lvl := ERROR; message := "Error occured: ";
                    cause := Some e |} ])%list)
  /\ parse_flyers_category w category st
     = parse_flyers_category w' category st.
Proof.
  intros Hb Hw Hget Hshops Hget' Hshops'. split.
  - intros s Hs. rewrite <- Hs in Hb.
    rewrite (breaking_shop w shop name s e Hb). split; [reflexivity|].
    split; now destruct shop.
  - unfold parse_flyers_category, category_body. cbn [reset base_url].
    rewrite Hget, Hget', Hshops, Hshops'.
    rewrite (visit_breaks w before shop name after _ e) by exact Hb.
    now rewrite (visit_same w w') by exact Hw.
Qed.

Lemma shops_after_an_error_are_not_visited_witness :
  (snd (parse_category_shop (Demo2.crashing (Demo.page "Alpha"))
                            (Some "/a/") "Alpha" (init "https://site"))
   = inr UnboundLocalError
   /\ parsed_flyers
        (fst (parse_category_shop (Demo2.crashing (Demo.page "Alpha"))
                                  (Some "/a/") "Alpha" (init "https://site")))
      = []
   /\ log
        (fst (parse_category_shop (Demo2.crashing (Demo.page "Alpha"))
                                  (Some "/a/") "Alpha" (init "https://site")))
      = [ {| lvl := ERROR; message := "Error occured: ";
             cause := Some WebDriverException |} ])
  /\ parse_flyers_category (Demo2.crashing (Demo.page "Alpha"))
                           "/hypermarkte/" (init "https://site")
     = parse_flyers_category (Demo2.crashing Demo.page_without_beta)
                             "/hypermarkte/" (init "https://site").
Proof.
  pose proof (shops_after_an_error_are_not_visited
                (Demo2.crashing (Demo.page "Alpha"))
                (Demo2.crashing Demo.page_without_beta)
                "/hypermarkte/" (init "https://site") (Demo.page "Alpha")
                Demo.page_without_beta
                [] (Some "/a/") "Alpha" [(Some "/b/", "Beta")]
                WebDriverException) as H.
  destruct H as [Hshop Hrun].
  - split; [discriminate|reflexivity].
  - split; reflexivity.
  - reflexivity.
  - reflexivity.
  - reflexivity.
  - reflexivity.
  - split; [exact (Hshop (init "https://site") eq_refl)|exact Hrun].
Defined.

(** X9: when the page of the category cannot be fetched, or has no anchor
    for the category or no element after it, [parse_flyers_category] ends
    with an empty [parsed_flyers] (whatever it held before), has only quit
    the browser, without opening any page, and has made one
    [logging.error] call. *)
Theorem nothing_is_visited_without_shops w category st e :
  requests_get w (base_url st ++ category) = inr e
  \/ (exists soup, requests_get w (base_url st ++ category) = inl soup
                   /\ discover soup category = inr e) ->
  parsed_flyers (parse_flyers_category w category st) = []
  /\ driver (parse_flyers_category w category st) = (driver st ++ [Quit])%list
  /\ errors (log (parse_flyers_category w category st)) = S (errors (log st))
  /\ ticks (parse_flyers_category w category st) = ticks st.
Proof.
  unfold parse_flyers_category, category_body. cbn [reset base_url].
  intros [Hget|(soup & Hget & Hshops)]; rewrite Hget; [|rewrite Hshops];
    destruct e; unfold raise;
    cbn [category_handler category_finally logging drive reset
         parsed_flyers driver log ticks base_url];
    unfold errors; rewrite !filter_app, !length_app;
    cbn [filter is_error lvl length]; repeat split; lia.
Qed.

Lemma nothing_is_visited_without_shops_witness :
  parsed_flyers
    (parse_flyers_category (Demo.world (Demo.page "Alpha") Demo.flyers_of_alpha)
                           "/drogerien/" (init "https://site")) = []
  /\ driver
       (parse_flyers_category (Demo.world (Demo.page "Alpha") Demo.flyers_of_alpha)
                              "/drogerien/" (init "https://site"))
     = ([Chrome] ++ [Quit])%list
  /\ errors
       (log (parse_flyers_category
               (Demo.world (Demo.page "Alpha") Demo.flyers_of_alpha)
               "/drogerien/" (init "https://site"))) = 1%nat
  /\ ticks
       (parse_flyers_category (Demo.world (Demo.page "Alpha") Demo.flyers_of_alpha)
                              "/drogerien/" (init "https://site")) = O.
Proof.
  apply (nothing_is_visited_without_shops
           (Demo.world (Demo.page "Alpha") Demo.flyers_of_alpha)
           "/drogerien/" (init "https://site") RequestException).
  left. reflexivity.
Defined.

End RunFacts.


(** * More about the discovery *)

Module SoupFacts.

Import PyStr Props2 Soup Scraper.

(** *** The test of the selector *)

Lemma css_attribute_reads attrs key v :
  css_attribute key attrs = Some v <-> reads attrs key v.
Proof.
  induction attrs as [|[k w] attrs IH]; cbn [css_attribute].
  - split; [discriminate|]. intros (before & k & after & H & _).
    now destruct before.
  - destruct (String.eqb (lower k) (lower key)) eqn:E.
    + apply String.eqb_eq in E. split.
      * intros [= ->]. exists [], k, attrs.
        repeat split; [exact E|constructor].
      * intros (before & k' & after & H & Hk & Hb).
        destruct before as [|[k0 v0] before]; cbn in H.
        -- now injection H as _ ->.
        -- injection H as <- <- _. apply Forall_cons_iff in Hb as [Hb _].
           cbn in Hb. contradiction.
    + apply String.eqb_neq in E. rewrite IH. split.
      * intros (before & k' & after & -> & Hk & Hb).
        exists ((k, w) :: before), k', after.
        repeat split; [exact Hk|]. constructor; [exact E|exact Hb].
      * intros (before & k' & after & H & Hk & Hb).
        destruct before as [|[k0 v0] before]; cbn in H.
        -- injection H as -> _ _. contradiction.
        -- injection H as _ _ ->. apply Forall_cons_iff in Hb as [_ Hb].
           now exists before, k', after.
Qed.

Lemma value_matches_fits category v :
  value_matches category v = true <-> fits category v.
Proof.
  unfold value_matches, fits. now rewrite orb_true_iff, !String.eqb_eq.
Qed.

Lemma string_is_no_anchor n : is_string n -> ~ is_anchor n.
Proof.
  intros Hs (name & attrs & cs & -> & _). exact Hs.
Qed.

Lemma category_anchor_iff category n :
  is_category_anchor category n = true <-> category_anchor category n.
Proof.
  unfold category_anchor.
  destruct n as [t|c t|name attrs cs]; cbn [is_category_anchor attributes].
  - split; [discriminate|]. intros [H _].
    now apply (string_is_no_anchor (NavigableString t)) in H.
  - split; [discriminate|]. intros [H _].
    now apply (string_is_no_anchor (SpecialString c t)) in H.
  - rewrite andb_true_iff, String.eqb_eq. split.
    + intros [Hn Hv]. split; [now exists name, attrs, cs|].
      destruct (css_attribute "href" attrs) as [v|] eqn:E; [|discriminate].
      exists v. split; [now apply css_attribute_reads|].
      now apply value_matches_fits.
    + intros [(name' & attrs' & cs' & [= <- <- <-] & Hn) (v & Hr & Hf)].
      split; [exact Hn|]. apply css_attribute_reads in Hr. rewrite Hr.
      now apply value_matches_fits.
Qed.

(** *** The first match *)

Lemma select_one_in_tag category following name attrs cs :
  select_one_in category following (Tag name attrs cs)
  = if is_category_anchor category (Tag name attrs cs)
    then Some (Tag name attrs cs, following)
    else select_one_doc category cs.
Proof.
  cbn [select_one_in].
  destruct (is_category_anchor category (Tag name attrs cs)); [reflexivity|].
  induction cs as [|c cs IH]; cbn [select_one_doc]; [reflexivity|].
  destruct (select_one_in category cs c); [reflexivity|exact IH].
Qed.

Section FirstMatch.

Variable category : string.

Lemma doc_none_from doc :
  Forall (fun n => forall following,
              select_one_in category following n = None -> none_below (category_anchor category) n)
         doc ->
  select_one_doc category doc = None -> Forall (none_below (category_anchor category)) doc.
Proof.
  induction 1 as [|n doc Hn _ IH]; cbn [select_one_doc]; [constructor|].
  destruct (select_one_in category doc n) eqn:E; [discriminate|].
  intros H. constructor; [exact (Hn _ E)|exact (IH H)].
Qed.

Lemma select_one_in_none n :
  forall following,
    select_one_in category following n = None -> none_below (category_anchor category) n.
Proof.
  apply (Node_forall
           (fun n => forall following,
                select_one_in category following n = None ->
                none_below (category_anchor category) n)).
  - intros t following _ d Hd. inversion Hd; subst. intros [H _].
    now apply (string_is_no_anchor (NavigableString t)) in H.
  - intros c t following _ d Hd. inversion Hd; subst. intros [H _].
    now apply (string_is_no_anchor (SpecialString c t)) in H.
  - intros name attrs cs IH following. rewrite select_one_in_tag.
    destruct (is_category_anchor category (Tag name attrs cs)) eqn:E;
      [discriminate|].
    intros H d Hd. pose proof (doc_none_from cs IH H) as Hcs.
    inversion Hd as [|? ? ? c ? Hc Hb]; subst.
    + intros HP. apply category_anchor_iff in HP. congruence.
    + rewrite Forall_forall in Hcs. exact (Hcs c Hc d Hb).
Qed.

Lemma first_cons n doc a f :
  none_below (category_anchor category) n -> first (category_anchor category) doc a f -> first (category_anchor category) (n :: doc) a f.
Proof.
  intros Hn H.
  destruct H as [before m following Hb Hm
                |before name attrs cs after m following Hb Hn' Hf].
  - apply (first_here (category_anchor category) (n :: before)); [now constructor|exact Hm].
  - apply (first_below (category_anchor category) (n :: before)); [now constructor|exact Hn'|exact Hf].
Qed.

Lemma doc_first_from doc :
  Forall (fun n => forall following a f,
              select_one_in category following n = Some (a, f) ->
              (a = n /\ f = following /\ (category_anchor category) n)
              \/ exists name attrs cs,
                  n = Tag name attrs cs /\ ~ (category_anchor category) n /\ first (category_anchor category) cs a f)
         doc ->
  forall a f, select_one_doc category doc = Some (a, f) -> first (category_anchor category) doc a f.
Proof.
  induction 1 as [|n doc Hn _ IH]; cbn [select_one_doc]; [discriminate|].
  intros a f. destruct (select_one_in category doc n) as [[a' f']|] eqn:E.
  - intros [= -> ->].
    destruct (Hn _ _ _ E) as [(-> & -> & Hp)|(name & attrs & cs & -> & Hnp & Hf)].
    + exact (first_here (category_anchor category) [] n doc (Forall_nil _) Hp).
    + exact (first_below (category_anchor category) [] name attrs cs doc a f (Forall_nil _) Hnp Hf).
  - intros H. apply first_cons; [exact (select_one_in_none n doc E)|].
    exact (IH a f H).
Qed.

Lemma select_one_in_some n :
  forall following a f,
    select_one_in category following n = Some (a, f) ->
    (a = n /\ f = following /\ (category_anchor category) n)
    \/ exists name attrs cs,
        n = Tag name attrs cs /\ ~ (category_anchor category) n /\ first (category_anchor category) cs a f.
Proof.
  apply (Node_forall
           (fun n => forall following a f,
                select_one_in category following n = Some (a, f) ->
                (a = n /\ f = following /\ (category_anchor category) n)
                \/ exists name attrs cs,
                    n = Tag name attrs cs /\ ~ (category_anchor category) n /\ first (category_anchor category) cs a f)).
  - intros t following a f H. discriminate H.
  - intros c t following a f H. discriminate H.
  - intros name attrs cs IH following a f. rewrite select_one_in_tag.
    destruct (is_category_anchor category (Tag name attrs cs)) eqn:E.
    + intros [= <- <-]. left. split; [reflexivity|]. split; [reflexivity|].
      now apply category_anchor_iff.
    + intros H. right. exists name, attrs, cs. split; [reflexivity|]. split.
      * intros HP. apply category_anchor_iff in HP. congruence.
      * exact (doc_first_from cs IH a f H).
Qed.

Lemma select_one_doc_first doc a f :
  select_one_doc category doc = Some (a, f) -> first (category_anchor category) doc a f.
Proof.
  apply doc_first_from. apply Forall_forall. intros n _.
  apply select_one_in_some.
Qed.

Lemma doc_none_to doc :
  Forall (fun n => none_below (category_anchor category) n ->
                   forall following,
                     select_one_in category following n = None)
         doc ->
  Forall (none_below (category_anchor category)) doc ->
  select_one_doc category doc = None.
Proof.
  induction 1 as [|n doc Hn _ IH]; cbn [select_one_doc]; [reflexivity|].
  intros H. apply Forall_cons_iff in H as [Hb H].
  now rewrite (Hn Hb doc), IH.
Qed.

Lemma no_match_below n :
  none_below (category_anchor category) n ->
  forall following, select_one_in category following n = None.
Proof.
  apply (Node_forall
           (fun n => none_below (category_anchor category) n ->
                     forall following,
                       select_one_in category following n = None)).
  - reflexivity.
  - reflexivity.
  - intros name attrs cs IH Hn following. rewrite select_one_in_tag.
    destruct (is_category_anchor category (Tag name attrs cs)) eqn:E.
    + apply category_anchor_iff in E. now apply Hn in E; [|constructor].
    + apply doc_none_to; [exact IH|]. apply Forall_forall.
      intros c Hc d Hd. apply Hn. now apply below_child with (c := c).
Qed.

Lemma select_one_doc_skips before doc :
  Forall (none_below (category_anchor category)) before ->
  select_one_doc category (before ++ doc) = select_one_doc category doc.
Proof.
  induction 1 as [|n before Hn _ IH]; cbn [app select_one_doc];
    [reflexivity|].
  now rewrite (no_match_below n Hn).
Qed.

Lemma first_is_selected doc a f :
  first (category_anchor category) doc a f ->
  select_one_doc category doc = Some (a, f).
Proof.
  induction 1 as [before n following Hb Hp
                 |before name attrs cs after n following Hb Hnp _ IH];
    rewrite (select_one_doc_skips _ _ Hb); cbn [select_one_doc].
  - apply category_anchor_iff in Hp.
    destruct n as [t|c t|name attrs cs]; try discriminate Hp.
    now rewrite select_one_in_tag, Hp.
  - rewrite select_one_in_tag.
    destruct (is_category_anchor category (Tag name attrs cs)) eqn:E.
    + now apply category_anchor_iff in E.
    + now rewrite IH.
Qed.

End FirstMatch.

Lemma first_sits P doc a f : first P doc a f -> sits doc a f /\ P a.
Proof.
  induction 1 as [before n following _ Hp
                 |before name attrs cs after n following _ _ _ [IH Hp]].
  - split; [constructor|exact Hp].
  - split; [now constructor|exact Hp].
Qed.

(** *** The next sibling *)

Lemma find_next_sibling_inv following d :
  find_next_sibling following = Some d ->
  exists strings rest,
    following = (strings ++ d :: rest)%list
    /\ Forall is_string strings /\ ~ is_string d.
Proof.
  induction following as [|n following IH]; cbn [find_next_sibling];
    [discriminate|].
  destruct n as [t|c t|name attrs cs].
  - intros H. destruct (IH H) as (strings & rest & -> & Hs & Hd).
    exists (NavigableString t :: strings), rest.
    split; [reflexivity|]. split; [constructor; [exact I|exact Hs]|exact Hd].
  - intros H. destruct (IH H) as (strings & rest & -> & Hs & Hd).
    exists (SpecialString c t :: strings), rest.
    split; [reflexivity|]. split; [constructor; [exact I|exact Hs]|exact Hd].
  - intros [= <-]. exists [], following.
    split; [reflexivity|]. split; [constructor|intros []].
Qed.

Lemma find_next_sibling_skips strings d rest :
  Forall is_string strings -> ~ is_string d ->
  find_next_sibling (strings ++ d :: rest) = Some d.
Proof.
  intros Hs Hd. induction Hs as [|n strings Hn _ IH]; cbn [app].
  - destruct d as [t|c t|name attrs cs]; [now destruct Hd..|reflexivity].
  - destruct n as [t|c t|name attrs cs]; [exact IH..|destruct Hn].
Qed.

(** *** The links of the dropdown *)

Lemma select_li_a_iff n :
  forall b link,
    In link (select_li_a b n)
    <-> (b = true /\ link = n /\ is_anchor n) \/ li_link n link.
Proof.
  apply (Node_forall
           (fun n => forall b link,
                In link (select_li_a b n)
                <-> (b = true /\ link = n /\ is_anchor n) \/ li_link n link)).
  - intros t b link. cbn [select_li_a]. split; [intros []|].
    intros [(_ & _ & H)|H]; [|inversion H].
    now apply (string_is_no_anchor (NavigableString t)) in H.
  - intros c t b link. cbn [select_li_a]. split; [intros []|].
    intros [(_ & _ & H)|H]; [|inversion H].
    now apply (string_is_no_anchor (SpecialString c t)) in H.
  - intros name attrs cs IH b link. cbn [select_li_a].
    rewrite Forall_forall in IH. rewrite in_app_iff, in_flat_map. split.
    + intros [H|(c & Hc & H)].
      * destruct b; cbn [andb] in H; [|destruct H].
        destruct (String.eqb (lower name) "a") eqn:E; [|destruct H].
        apply String.eqb_eq in E. destruct H as [<-|[]]. left.
        repeat split. now exists name, attrs, cs.
      * right. apply (IH c Hc) in H. destruct H as [(Hli & -> & Ha)|H].
        -- apply String.eqb_eq in Hli. now apply li_link_child.
        -- now apply li_link_below with (c := c).
    + intros [(-> & -> & Ha)|H].
      * left. destruct Ha as (name' & attrs' & cs' & [= <- <- <-] & Hn).
        cbn [andb]. apply String.eqb_eq in Hn. rewrite Hn. now left.
      * right.
        inversion H as [parent pattrs cs' link' Hli Ha Hin
                       |parent pattrs cs' c link' Hin Hl]; subst.
        -- exists link. split; [exact Hin|]. apply (IH link Hin). left.
           repeat split; [now apply String.eqb_eq|exact Ha].
        -- exists c. split; [exact Hin|]. apply (IH c Hin). now right.
Qed.

Lemma select_iff d link : In link (select d) <-> li_link d link.
Proof.
  destruct d as [t|c t|name attrs cs]; cbn [select].
  - split; [intros []|intros H; inversion H].
  - split; [intros []|intros H; inversion H].
  - rewrite in_flat_map. split.
    + intros (c & Hc & H). apply select_li_a_iff in H as [(Hli & -> & Ha)|H].
      * apply String.eqb_eq in Hli. now apply li_link_child.
      * now apply li_link_below with (c := c).
    + intros H.
      inversion H as [parent pattrs cs' link' Hli Ha Hin
                     |parent pattrs cs' c link' Hin Hl]; subst.
      * exists link. split; [exact Hin|]. apply select_li_a_iff. left.
        repeat split; [now apply String.eqb_eq|exact Ha].
      * exists c. split; [exact Hin|]. apply select_li_a_iff. now right.
Qed.

Lemma li_link_sits d link :
  li_link d link ->
  exists name attrs cs f, d = Tag name attrs cs /\ sits cs link f.
Proof.
  induction 1 as [parent pattrs cs link _ _ Hin
                 |parent pattrs cs c link Hin _ IH].
  - apply in_split in Hin as (l1 & l2 & ->).
    exists parent, pattrs, (l1 ++ link :: l2)%list, l2.
    split; [reflexivity|constructor].
  - destruct IH as (name & attrs & cs' & f & -> & Hs).
    apply in_split in Hin as (l1 & l2 & ->).
    exists parent, pattrs, (l1 ++ Tag name attrs cs' :: l2)%list, f.
    split; [reflexivity|now constructor].
Qed.

Lemma sits_sibling doc a l1 name attrs cs l2 link f :
  sits doc a (l1 ++ Tag name attrs cs :: l2)%list ->
  sits cs link f -> sits doc link f.
Proof.
  intros H Hl.
  remember (l1 ++ Tag name attrs cs :: l2)%list as following eqn:Ef.
  induction H as [before n following
                 |before name' attrs' cs' after n following _ IH]; subst.
  - change (n :: l1 ++ Tag name attrs cs :: l2)%list
      with ((n :: l1) ++ Tag name attrs cs :: l2)%list.
    rewrite List.app_assoc. now constructor.
  - constructor. now apply IH.
Qed.

(** *** The discovery *)

Lemma discover_inv soup category shops :
  plain category = true ->
  discover soup category = inl shops ->
  exists anchor following dropdown,
    select_one_doc category (contents soup) = Some (anchor, following)
    /\ find_next_sibling following = Some dropdown
    /\ shops = map (fun link => (get link "href", get_text link))
                   (select dropdown).
Proof.
  intros Hp. unfold discover, select_one. rewrite Hp. unfold ret, raise.
  destruct (select_one_doc category (contents soup)) as [[a f]|];
    [|discriminate].
  destruct (find_next_sibling f) as [d|] eqn:Ed; [|discriminate].
  intros [= <-]. exists a, f, d. split; [reflexivity|].
  split; [exact Ed|reflexivity].
Qed.

(** C6, as amended: for a category that the selector holds as it is, take
    the first [a] element of the page whose [href] fits the category, and
    the first element among the siblings after it, the dropdown.  The
    discovery returns one shop for every [a] child of an [li] element at or
    below the dropdown, and no other: its path is the value of the [href]
    attribute of the link and its name is the text of the link as
    [get_text] returns it, not trimmed.  The discovery succeeds on such
    pages only. *)
Theorem shops_of_the_dropdown soup category :
  plain category = true ->
  (forall anchor following strings dropdown rest,
      first (category_anchor category) (contents soup) anchor following ->
      following = (strings ++ dropdown :: rest)%list ->
      Forall is_string strings -> ~ is_string dropdown ->
      exists links,
        (forall link, In link links <-> li_link dropdown link)
        /\ discover soup category
           = inl (map (fun link => (get link "href", get_text link)) links))
  /\ (forall shops,
        discover soup category = inl shops ->
        exists anchor following strings dropdown rest,
          first (category_anchor category) (contents soup) anchor following
          /\ following = (strings ++ dropdown :: rest)%list
          /\ Forall is_string strings /\ ~ is_string dropdown).
Proof.
  intros Hp. split.
  - intros anchor following strings dropdown rest Ha -> Hs Hd.
    exists (select dropdown). split; [intros link; apply select_iff|].
    unfold discover, select_one. rewrite Hp. unfold ret.
    now rewrite (first_is_selected _ _ _ _ Ha),
      (find_next_sibling_skips _ _ _ Hs Hd).
  - intros shops H.
    destruct (discover_inv soup category shops Hp H)
      as (anchor & following & dropdown & Ha & Hd & _).
    apply select_one_doc_first in Ha.
    apply find_next_sibling_inv in Hd as (strings & rest & -> & Hs & Hd).
    now exists anchor, (strings ++ dropdown :: rest)%list, strings, dropdown,
      rest.
Qed.

Lemma shops_of_the_dropdown_witness :
  get_text Demo2.noisy_link = " Alpha "
  /\ discover Demo2.noisy_page "/hypermarkte/" = inl [(Some "/a/", " Alpha ")]
  /\ (forall anchor following strings dropdown rest,
        first (category_anchor "/hypermarkte/") (contents Demo2.noisy_page)
              anchor following ->
        following = (strings ++ dropdown :: rest)%list ->
        Forall is_string strings -> ~ is_string dropdown ->
        exists links,
          (forall link, In link links <-> li_link dropdown link)
          /\ discover Demo2.noisy_page "/hypermarkte/"
             = inl (map (fun link => (get link "href", get_text link)) links))
  /\ (forall shops,
        discover Demo2.noisy_page "/hypermarkte/" = inl shops ->
        exists anchor following strings dropdown rest,
          first (category_anchor "/hypermarkte/") (contents Demo2.noisy_page)
                anchor following
          /\ following = (strings ++ dropdown :: rest)%list
          /\ Forall is_string strings /\ ~ is_string dropdown).
Proof.
  split; [reflexivity|]. split; [reflexivity|].
  apply (shops_of_the_dropdown Demo2.noisy_page "/hypermarkte/").
  reflexivity.
Defined.

(** X10: when the discovery succeeds for a category that the selector holds
    as it is, the page holds an [a] element whose [href] attribute is the
    category, or the category and one line feed; and every shop it returns
    is the [href] and the text of an [a] element of the page. *)
Theorem discovery_reads_anchors soup category shops :
  plain category = true ->
  discover soup category = inl shops ->
  (exists anchor following value,
      sits (contents soup) anchor following
      /\ is_anchor anchor
      /\ reads (attributes anchor) "href" value
      /\ (value = category \/ value = category ++ line_feed))
  /\ forall shop,
      In shop shops ->
      exists link following,
        sits (contents soup) link following
        /\ is_anchor link
        /\ shop = (get link "href", get_text link).
Proof.
  intros Hp H.
  destruct (discover_inv soup category shops Hp H)
    as (anchor & following & dropdown & Ha & Hd & ->).
  apply select_one_doc_first, first_sits in Ha as [Ha [Hn (v & Hr & Hf)]].
  apply find_next_sibling_inv in Hd as (strings & rest & -> & _ & _).
  split.
  - now exists anchor, (strings ++ dropdown :: rest)%list, v.
  - intros shop Hs. apply in_map_iff in Hs as (link & <- & Hl).
    apply select_iff in Hl.
    assert (Hlink : is_anchor link).
    { clear - Hl. induction Hl; assumption. }
    destruct (li_link_sits dropdown link Hl) as (name & attrs & cs & f & -> & Hf').
    exists link, f. split; [|split; [exact Hlink|reflexivity]].
    exact (sits_sibling _ _ _ _ _ _ _ _ _ Ha Hf').
Qed.

Lemma discovery_reads_anchors_witness :
  (exists anchor following value,
      sits (contents Demo2.noisy_page) anchor following
      /\ is_anchor anchor
      /\ reads (attributes anchor) "href" value
      /\ (value = "/hypermarkte/" \/ value = "/hypermarkte/" ++ line_feed))
  /\ forall shop,
      In shop [(Some "/a/", " Alpha ")] ->
      exists link following,
        sits (contents Demo2.noisy_page) link following
        /\ is_anchor link
        /\ shop = (get link "href", get_text link).
Proof.
  apply (discovery_reads_anchors Demo2.noisy_page "/hypermarkte/"
           [(Some "/a/", " Alpha ")]).
  - reflexivity.
  - reflexivity.
Defined.

End SoupFacts.

(** * The written file *)

Module JsonFacts.

Import PyStr Chars Props2 Scraper Json PyStrFacts.

Lemma read_escape s rest :
  read_string (escape s ++ String quote rest) = Some (s, rest).
Proof.
  induction s as [|c s IH]; [reflexivity|].
  cbn [escape]. rewrite PyStrFacts.app_assoc.
  set (tail := escape s ++ String quote rest) in *.
  destruct c as [[] [] [] [] [] [] [] []]; cbn; rewrite IH; reflexivity.
Qed.

Lemma escape_inj s1 s2 x1 x2 :
  escape s1 ++ String quote x1 = escape s2 ++ String quote x2 ->
  s1 = s2 /\ x1 = x2.
Proof.
  intros H. apply (f_equal read_string) in H. rewrite !read_escape in H.
  now injection H.
Qed.

Lemma encode_app s x :
  encode_basestring s ++ x = String quote (escape s ++ String quote x).
Proof.
  unfold encode_basestring.
  change (String quote (escape s ++ String quote EmptyString) ++ x)
    with (String quote ((escape s ++ String quote EmptyString) ++ x)).
  now rewrite PyStrFacts.app_assoc.
Qed.

(** X11: a string literal is read back: no two texts have the same
    literal, and no literal is the beginning of another one, whatever
    follows them. *)
Theorem literals_are_distinct s1 s2 x1 x2 :
  encode_basestring s1 ++ x1 = encode_basestring s2 ++ x2 ->
  s1 = s2 /\ x1 = x2.
Proof.
  rewrite !encode_app. intros [= H]. now apply escape_inj.
Qed.

Lemma literals_are_distinct_witness :
  "Angebote" = "Angebote" /\ "," = ",".
Proof.
  apply (literals_are_distinct "Angebote" "Angebote" "," ",").
  reflexivity.
Defined.

Lemma escape_char_printable c : all_chars printable (escape_char c) = true.
Proof. destruct c as [[] [] [] [] [] [] [] []]; reflexivity. Qed.

Lemma escape_printable s : all_chars printable (escape s) = true.
Proof.
  induction s as [|c s IH]; [reflexivity|].
  cbn [escape]. now rewrite all_chars_app, escape_char_printable, IH.
Qed.

(** X12: a string literal holds no control character, whatever the text:
    each one is written as an escape. *)
Theorem literals_hold_no_control_character s :
  all_chars printable (encode_basestring s) = true.
Proof.
  unfold encode_basestring. cbn [all_chars].
  now rewrite all_chars_app, escape_printable.
Qed.

End JsonFacts.

Module DumpFacts.

Import PyStr Chars Props2 Scraper Json PyStrFacts JsonFacts.

Lemma same_head a x y : String a x = String a y -> x = y.
Proof. now intros [= ->]. Qed.

Ltac peel H :=
  repeat match type of H with
    | String ?a _ = String ?a _ => apply same_head in H
    end.

Ltac literal H := peel H; apply escape_inj in H as [? H]; subst.

Lemma dict_distinct r1 r2 k1 k2 :
  iterencode_dict 1 (items r1) ++ k1 = iterencode_dict 1 (items r2) ++ k2 ->
  r1 = r2 /\ k1 = k2.
Proof.
  destruct r1 as [t1 th1 n1 f1 o1 p1], r2 as [t2 th2 n2 f2 o2 p2].
  unfold iterencode_dict, items.
  cbn [map join]. unfold encode_item.
  cbn [fst snd title thumbnail shop_name valid_from valid_to parsed_time].
  intros H.
  destruct th1 as [th1|], th2 as [th2|]; cbn [encode_value] in H;
    rewrite !PyStrFacts.app_assoc, !encode_app in H; cbn in H;
    repeat literal H; peel H; try discriminate H; now subst.
Qed.

Lemma join_one sep f : join sep [f] = f.
Proof. reflexivity. Qed.

Lemma list_distinct l1 l2 :
  l1 <> [] -> l2 <> [] ->
  join ("," ++ newline_indent 1)
       (map (fun r => iterencode_dict 1 (items r)) l1)
  ++ newline_indent 0 ++ "]"
  = join ("," ++ newline_indent 1)
         (map (fun r => iterencode_dict 1 (items r)) l2)
    ++ newline_indent 0 ++ "]" ->
  l1 = l2.
Proof.
  revert l2. induction l1 as [|r1 l1 IH]; intros l2 H1 H2 H; [contradiction|].
  destruct l2 as [|r2 l2]; [contradiction|].
  cbn [map] in H.
  destruct l1 as [|r1' l1], l2 as [|r2' l2]; cbn [map] in H.
  - rewrite !join_one in H. apply dict_distinct in H as [-> _]. reflexivity.
  - rewrite join_cons, join_one in H.
    rewrite !PyStrFacts.app_assoc in H.
    apply dict_distinct in H as [_ H]. discriminate H.
  - rewrite join_cons, join_one in H.
    rewrite !PyStrFacts.app_assoc in H.
    apply dict_distinct in H as [_ H]. discriminate H.
  - rewrite !join_cons in H. rewrite !PyStrFacts.app_assoc in H.
    apply dict_distinct in H as [-> H]. f_equal.
    apply IH; try discriminate.
    cbn [map]. cbn - [join iterencode_dict] in H. peel H. exact H.
Qed.

Lemma dump_distinct l1 l2 : dump l1 = dump l2 -> l1 = l2.
Proof.
  unfold dump, iterencode_list.
  destruct l1 as [|r1 l1], l2 as [|r2 l2]; try reflexivity;
    try (intros H; cbn in H; discriminate H).
  intros H. cbn - [join iterencode_dict map] in H. peel H.
  apply list_distinct; [discriminate|discriminate|].
  cbn - [join iterencode_dict map]. exact H.
Qed.

(** X13: the written text tells the records: two different lists of
    records never give the same text. *)
Theorem dump_is_injective l1 l2 : dump l1 = dump l2 -> l1 = l2.
Proof. intros H. apply dump_distinct. exact H. Qed.

Lemma dump_is_injective_witness :
  parsed_flyers (run (Demo.world (Demo.page "Alpha") Demo.flyers_of_alpha)
                     "https://site" "/hypermarkte/")
  = parsed_flyers (run (Demo.world Demo.page_without_beta Demo.flyers_of_alpha)
                       "https://site" "/hypermarkte/").
Proof.
  apply (dump_is_injective
           (parsed_flyers
              (run (Demo.world (Demo.page "Alpha") Demo.flyers_of_alpha)
                   "https://site" "/hypermarkte/"))
           (parsed_flyers
              (run (Demo.world Demo.page_without_beta Demo.flyers_of_alpha)
                   "https://site" "/hypermarkte/"))).
  reflexivity.
Defined.

End DumpFacts.

(** * The script *)

Module ScriptFacts.

Import PyStr Props Props2 Scraper Json Script.
Import CategoryFacts.

Lemma no_shops_no_records w category st e :
  requests_get w (base_url st ++ category) = inr e
  \/ (exists soup, requests_get w (base_url st ++ category) = inl soup
                   /\ discover soup category = inr e) ->
  parsed_flyers (parse_flyers_category w category st) = [].
Proof.
  rewrite category_parsed. unfold category_body. cbn [reset base_url].
  intros [Hget|(soup & Hget & Hshops)]; rewrite Hget; [|rewrite Hshops];
    reflexivity.
Qed.

(** When the output file can be opened, the script leaves in it the text
    of the records of its run and leaves every other file as it was. *)
Lemma the_file_holds_the_run w writable disk a :
  writable (output a) = true ->
  files (main w writable disk a) (output a)
  = Some (dump (parsed_flyers (run w BASE_URL (category a))))
  /\ (forall name, name <> output a -> files (main w writable disk a) name = disk name)
  /\ parser (main w writable disk a) = run w BASE_URL (category a).
Proof.
  intros Hopen. unfold main, write_flyers_to_file. rewrite Hopen.
  cbn [store io_logging files parser]. rewrite String.eqb_refl.
  repeat split. intros name Hname.
  apply String.eqb_neq in Hname. now rewrite Hname.
Qed.

(** X14: the output file tells the records of the run: two runs of the
    script that both open their output file and leave the same text in it
    have parsed the same records. *)
Theorem the_file_tells_the_records w w' writable writable' disk disk' a a' :
  writable (output a) = true ->
  writable' (output a') = true ->
  files (main w writable disk a) (output a)
  = files (main w' writable' disk' a') (output a') ->
  parsed_flyers (run w BASE_URL (category a))
  = parsed_flyers (run w' BASE_URL (category a')).
Proof.
  intros Hopen Hopen' H.
  destruct (the_file_holds_the_run w writable disk a Hopen) as [Hf _].
  destruct (the_file_holds_the_run w' writable' disk' a' Hopen') as [Hf' _].
  rewrite Hf, Hf' in H. injection H as H.
  now apply DumpFacts.dump_distinct.
Qed.

Lemma the_file_tells_the_records_witness :
  parsed_flyers
    (run (Demo.world (Demo.page "Alpha") Demo.flyers_of_alpha)
         BASE_URL (category (parse_args None None)))
  = parsed_flyers
      (run (Demo.world Demo.page_without_beta Demo.flyers_of_alpha)
           BASE_URL (category (parse_args None (Some "out.json")))).
Proof.
  apply (the_file_tells_the_records
           (Demo.world (Demo.page "Alpha") Demo.flyers_of_alpha)
           (Demo.world Demo.page_without_beta Demo.flyers_of_alpha)
           (Demo2.always true) (Demo2.always true)
           Demo2.empty_disk Demo2.empty_disk
           (parse_args None None) (parse_args None (Some "out.json")));
    reflexivity.
Defined.

(** X15: when the page of the category cannot be fetched, or the shops
    cannot be found in it, the script still writes the output file: it then
    holds the empty array, whatever it held before. *)
Theorem a_failed_run_empties_the_file w writable disk a e :
  writable (output a) = true ->
  requests_get w (BASE_URL ++ category a) = inr e
  \/ (exists soup, requests_get w (BASE_URL ++ category a) = inl soup
                   /\ discover soup (category a) = inr e) ->
  files (main w writable disk a) (output a) = Some "[]".
Proof.
  intros Hopen Hfail. unfold main, write_flyers_to_file. rewrite Hopen.
  cbn [store io_logging files parser]. rewrite String.eqb_refl.
  now rewrite (no_shops_no_records w (category a) (init BASE_URL) e Hfail).
Qed.

Lemma a_failed_run_empties_the_file_witness :
  files (main (Demo.world (Demo.page "Alpha") Demo.flyers_of_alpha)
              (Demo2.always true) (fun _ => Some "[1]") (parse_args None None))
        "parsed_flyers.json"
  = Some "[]".
Proof.
  apply (a_failed_run_empties_the_file
           (Demo.world (Demo.page "Alpha") Demo.flyers_of_alpha)
           (Demo2.always true) (fun _ => Some "[1]") (parse_args None None)
           RequestException).
  - reflexivity.
  - left. reflexivity.
Defined.

(** When the output file cannot be opened, the script leaves every file as
    it was, keeps the records of the run in the parser, and logs the failure
    once, as an error. *)
Lemma an_unwritable_file_is_only_logged w writable disk a :
  writable (output a) = false ->
  (forall name, files (main w writable disk a) name = disk name)
  /\ parser (main w writable disk a) = run w BASE_URL (category a)
  /\ io_log (main w writable disk a)
     = [ {| io_lvl := INFO; io_message := "Writing flyers data to file";
            io_cause := None |};
         {| io_lvl := ERROR; io_message := "Failed to write to file, Error: ";
            io_cause := Some IOError |} ].
Proof.
  intros Hopen. unfold main, write_flyers_to_file. rewrite Hopen.
  repeat split.
Qed.

End ScriptFacts.

(** * Edges of the parse and of the loop *)

Module EdgeFacts.

Import PyStr Strptime Token Chars Props Props2 Scraper.
Import PyStrFacts StrptimeFacts ValidityRange FlyerFacts ShopFacts
       CategoryFacts RecordFacts RunFacts.

(** X16: the source of the image: a non-empty [src] is the thumbnail of the
    record whatever [data-src] holds, and with [src] absent or empty the
    thumbnail is what [data-src] holds, be it nothing or the empty string. *)
Theorem eager_source_wins flyer t src from to img :
  extract flyer = inl (t, src, from, to) ->
  find_element flyer "img" = inl img ->
  (forall u, get_attribute img "src" = Some u -> u <> EmptyString ->
             src = Some u)
  /\ (get_attribute img "src" = None
      \/ get_attribute img "src" = Some EmptyString ->
      src = get_attribute img "data-src").
Proof.
  intros Hex Himg.
  apply extract_inv in Hex as (_ & img' & _ & _ & _ & _ & Himg' & -> & _).
  rewrite Himg in Himg'. injection Himg' as <-. unfold or_. split.
  - intros u -> Hu. destruct u; [contradiction|reflexivity].
  - intros [-> | ->]; reflexivity.
Qed.

Lemma eager_source_wins_witness :
  (forall u, get_attribute Demo.picture "src" = Some u -> u <> EmptyString ->
             Some "https://img/1.jpg" = Some u)
  /\ (get_attribute Demo.picture "src" = None
      \/ get_attribute Demo.picture "src" = Some EmptyString ->
      Some "https://img/1.jpg" = get_attribute Demo.picture "data-src").
Proof.
  apply (eager_source_wins
           (Demo.figure (Some Demo.picture) "01.06.2024 - 15.06.2024")
           "Angebote" (Some "https://img/1.jpg") "2024-06-01" "2024-06-15"
           Demo.picture); reflexivity.
Defined.

(** X17: what follows the dates is not read.  After two valid dates with
    " - " between them, any further " - " field is ignored (as long as the
    text holds no "v", hence no marker); after the marker, a word and a
    date, any further blank-separated field is ignored. *)
Theorem later_fields_are_ignored dt1 dt2 t1 t2 word tail :
  valid_date dt1 -> written t1 dt1 ->
  valid_date dt2 -> written t2 dt2 ->
  all_chars (is_not " ") word = true ->
  all_chars (is_not " ") t1 = true ->
  (all_chars (is_not "v") tail = true ->
   parse_validity_range (t1 ++ " - " ++ t2 ++ " - " ++ tail)
   = inl (strftime_date dt1, strftime_date dt2))
  /\ parse_validity_range ("von" ++ " " ++ word ++ " " ++ t1 ++ " " ++ tail)
     = inl (strftime_date dt1, EmptyString).
Proof.
  intros Hv1 Hw1 Hv2 Hw2 Hword Ht1. split.
  - intros Htail. unfold parse_validity_range.
    assert (Hvon : contains "von" (t1 ++ " - " ++ t2 ++ " - " ++ tail) = false).
    { apply contains_without_first. rewrite !all_chars_app.
      rewrite (written_without t1 dt1), (written_without t2 dt2), Htail
        by (assumption || reflexivity).
      reflexivity. }
    rewrite Hvon.
    rewrite split_hyphen_field
      by (apply (written_without t1 dt1); assumption || reflexivity).
    rewrite split_hyphen_field
      by (apply (written_without t2 dt2); assumption || reflexivity).
    cbn [index nth_error bind ret].
    rewrite (strptime_written t1 dt1 Hv1 Hw1). cbn [bind].
    now rewrite (strptime_written t2 dt2 Hv2 Hw2).
  - apply third_field_is_read with (tok := t1).
    + reflexivity.
    + rewrite (split_blank_field "von") by reflexivity.
      rewrite (split_blank_field word), (split_blank_field t1) by assumption.
      reflexivity.
    + now apply strptime_written.
Qed.

Lemma later_fields_are_ignored_witness :
  (all_chars (is_not "v") "solange Vorrat reicht" = true ->
   parse_validity_range "01.06.2024 - 15.06.2024 - solange Vorrat reicht"
   = inl ("2024-06-01", "2024-06-15"))
  /\ parse_validity_range "von Montag 01.06.2024 solange Vorrat reicht"
     = inl ("2024-06-01", "").
Proof.
  apply (later_fields_are_ignored (Date 2024 6 1) (Date 2024 6 15)
           "01.06.2024" "15.06.2024" "Montag" "solange Vorrat reicht").
  - reflexivity.
  - exists "01", "06". repeat split; left; reflexivity.
  - reflexivity.
  - exists "15", "06". repeat split; left; reflexivity.
  - reflexivity.
  - reflexivity.
Defined.

(** *** Records are only appended *)

Lemma shop_appends w shop name st :
  exists more,
    parsed_flyers (fst (parse_category_shop w shop name st))
    = (parsed_flyers st ++ more)%list.
Proof.
  destruct (parse_category_shop_outcome w shop name st); cbn [fst].
  - destruct (parse_flyers_added w name flyers
                (drive (Get (base_url st ++ path)) st)) as (added & Hp & _).
    exists added. exact Hp.
  - exists []. cbn. now rewrite app_nil_r.
  - exists []. destruct shop; cbn; now rewrite app_nil_r.
Qed.

Lemma visit_appends w shops st :
  exists more,
    parsed_flyers (fst (visit w shops st)) = (parsed_flyers st ++ more)%list.
Proof.
  revert st. induction shops as [|[shop name] shops IH]; intros st;
    cbn [visit].
  - exists []. cbn. now rewrite app_nil_r.
  - destruct (shop_appends w shop name st) as [more Hm].
    destruct (parse_category_shop w shop name st) as [st' [[]|e]];
      cbn [fst] in *.
    + destruct (IH st') as [more' Hm']. exists (more ++ more')%list.
      now rewrite Hm', Hm, List.app_assoc.
    + now exists more.
Qed.

Lemma visit_prefix w before after st :
  exists more,
    parsed_flyers (fst (visit w (before ++ after) st))
    = (parsed_flyers (fst (visit w before st)) ++ more)%list.
Proof.
  revert st. induction before as [|[shop name] before IH]; intros st;
    cbn [app visit].
  - apply visit_appends.
  - destruct (parse_category_shop w shop name st) as [st' [[]|e]];
      cbn [fst].
    + apply IH.
    + exists []. now rewrite app_nil_r.
Qed.

(** X18: records are only appended, in the order of the dropdown: the
    records of a run whose dropdown holds more links at its end begin with
    the records of the run without those links, whatever happens at the
    added shops. *)
Theorem more_shops_only_append
        w w' category st soup soup' before after :
  same_browser w w' ->
  requests_get w (base_url st ++ category) = inl soup ->
  discover soup category = inl (before ++ after)%list ->
  requests_get w' (base_url st ++ category) = inl soup' ->
  discover soup' category = inl before ->
  exists more,
    parsed_flyers (parse_flyers_category w category st)
    = (parsed_flyers (parse_flyers_category w' category st) ++ more)%list.
Proof.
  intros Hw Hget Hshops Hget' Hshops'. rewrite !category_parsed.
  unfold category_body. cbn [reset base_url].
  rewrite Hget, Hget', Hshops, Hshops'.
  rewrite <- (visit_same w w') by exact Hw. apply visit_prefix.
Qed.

Lemma more_shops_only_append_witness :
  exists more,
    parsed_flyers
      (parse_flyers_category (Demo.world (Demo.page "Alpha") Demo.flyers_of_alpha)
                             "/hypermarkte/" (init "https://site"))
    = (parsed_flyers
         (parse_flyers_category
            (Demo.world Demo.page_without_beta Demo.flyers_of_alpha)
            "/hypermarkte/" (init "https://site")) ++ more)%list.
Proof.
  apply (more_shops_only_append
           (Demo.world (Demo.page "Alpha") Demo.flyers_of_alpha)
           (Demo.world Demo.page_without_beta Demo.flyers_of_alpha)
           "/hypermarkte/" (init "https://site")
           (Demo.page "Alpha") Demo.page_without_beta
           [(Some "/a/", "Alpha")] [(Some "/b/", "Beta")]).
  - split; reflexivity.
  - reflexivity.
  - reflexivity.
  - reflexivity.
  - reflexivity.
Defined.

End EdgeFacts.
